(** * Claude Usage Curses Monitor: a shallow embedding of [main.py]

    The development follows the source file top to bottom: the module
    constants, the category normalizer [parse_usage], the glide-slope
    calculator [calc_glide_slope], the bar renderer [draw_bar] and the
    dashboard loop of [main] with its nested [do_fetch].

    Conventions.
    - Python numbers (JSON numbers, percentages, [time.time()] readings) are
      exact rationals [Q]; every comparison of the source is the same
      comparison on [Q].  Binary64 rounding is not modelled.
    - A Python [dict] is an insertion-ordered association list.
    - The collaborators the loop talks to (keychain, HTTP endpoint, the
      clock, [getch]) are inputs of the model: every call site receives the
      value the call returned. *)

From Stdlib Require Import ZArith QArith Qround Bool List String Ascii Lia Lqa.
From Stdlib Require Import DecimalString Sorted.
Import ListNotations.

Local Open Scope string_scope.
Local Open Scope Z_scope.

(** ** Python values *)

(** What [json.loads] can return. *)
#[warnings="-register-all"]
Inductive pyval : Type :=
| PNone
| PBool (b : bool)
| PNum (q : Q)
| PStr (s : string)
| PList (l : list pyval)
| PDict (d : list (string * pyval)).

Definition pydict : Type := list (string * pyval).

(** [key in d] and [d[key]]: the entry stored under [key], if any. *)
Fixpoint dict_lookup (d : pydict) (key : string) : option pyval :=
  match d with
  | [] => None
  | (k, v) :: rest => if String.eqb k key then Some v else dict_lookup rest key
  end.

(** [d.get(key)]: [None] when the key is missing. *)
Definition dict_get (d : pydict) (key : string) : pyval :=
  match dict_lookup d key with
  | Some v => v
  | None => PNone
  end.

(** [d.get(key, default)] on the constant tables of the module. *)
Definition table_get {A : Type} (t : list (string * A)) (key : string) (default : A) : A :=
  match find (fun kv => String.eqb (fst kv) key) t with
  | Some kv => snd kv
  | None => default
  end.

(** [v is None] *)
Definition is_none (v : pyval) : bool :=
  match v with
  | PNone => true
  | _ => false
  end.

(** Truth value of a Python object, as tested by [if v:] and [not v]. *)
Definition py_truthy (v : pyval) : bool :=
  match v with
  | PNone => false
  | PBool b => b
  | PNum q => negb (Qeq_bool q 0)
  | PStr s => negb (String.eqb s "")
  | PList l => match l with [] => false | _ => true end
  | PDict d => match d with [] => false | _ => true end
  end.

(** Truth value of an optional error string ([None] and [""] are false). *)
Definition str_truthy (s : option string) : bool :=
  match s with
  | None => false
  | Some m => negb (String.eqb m "")
  end.

(** ** Module constants (lines 17-41) *)

Definition WINDOW_DURATIONS : list (string * Z) :=
  [ ("five_hour", 5 * 3600);
    ("seven_day", 7 * 24 * 3600);
    ("seven_day_opus", 7 * 24 * 3600);
    ("seven_day_sonnet", 7 * 24 * 3600) ].

Definition DISPLAY_NAMES : list (string * string) :=
  [ ("five_hour", "Current session");
    ("seven_day", "All models (7-day)");
    ("seven_day_opus", "Opus only (7-day)");
    ("seven_day_sonnet", "Sonnet only (7-day)") ].

Definition CATEGORY_ORDER : list string :=
  [ "five_hour"; "seven_day"; "seven_day_opus"; "seven_day_sonnet" ].

Definition FILL_CHAR : string := " ".
Definition EMPTY_CHAR : string := " ".
Definition MARKER_CHAR : string := "|".

Definition REFRESH_FOCUSED : Q := 30.
Definition REFRESH_UNFOCUSED : Q := 600.

(** ** Category normalizer (lines 87-129) *)

(** One element of the list [parse_usage] returns.  [utilization] and
    [resets_at] hold whatever the payload held: the source stores them
    without looking at their type. *)
Record category : Type := mkCategory {
  key : string;
  name : string;
  utilization : pyval;
  resets_at : pyval;
  window_seconds : Z
}.

(** [key.replace("_", " ")] *)
Fixpoint replace_underscores (s : string) : string :=
  match s with
  | EmptyString => EmptyString
  | String c rest =>
      String (if Ascii.eqb c "_"%char then " "%char else c) (replace_underscores rest)
  end.

Definition is_upper (c : ascii) : bool :=
  let n := nat_of_ascii c in (65 <=? n)%nat && (n <=? 90)%nat.
Definition is_lower (c : ascii) : bool :=
  let n := nat_of_ascii c in (97 <=? n)%nat && (n <=? 122)%nat.
Definition to_upper (c : ascii) : ascii :=
  if is_lower c then ascii_of_nat (nat_of_ascii c - 32) else c.
Definition to_lower (c : ascii) : ascii :=
  if is_upper c then ascii_of_nat (nat_of_ascii c + 32) else c.

(** [str.title()] on ASCII text: a cased character is upper-cased when the
    character before it is not cased, lower-cased otherwise. *)
Fixpoint title_from (prev_cased : bool) (s : string) : string :=
  match s with
  | EmptyString => EmptyString
  | String c rest =>
      if is_upper c || is_lower c
      then String (if prev_cased then to_lower c else to_upper c) (title_from true rest)
      else String c (title_from false rest)
  end.

Definition title (s : string) : string := title_from false s.

Definition str_in (k : string) (l : list string) : bool :=
  existsb (String.eqb k) l.

(** The body shared by both loops once [entry] is known to be a dict
    (lines 98-110 and 115-128); [None] stands for [continue]. *)
Definition make_category (k : string) (entry : pydict)
    (fallback_name : string) (fallback_window : Z) : option category :=
  let utilization := dict_get entry "utilization" in
  let resets_at := dict_get entry "resets_at" in
  if is_none utilization && is_none resets_at then None
  else
    let utilization := if is_none utilization then PNum 0 else utilization in
    Some {| key := k;
            name := table_get DISPLAY_NAMES k fallback_name;
            utilization := utilization;
            resets_at := resets_at;
            window_seconds := table_get WINDOW_DURATIONS k fallback_window |}.

(** First loop (lines 91-110), threading [categories] and [seen]. *)
Fixpoint known_loop (data : pydict) (keys : list string)
    (categories : list category) (seen : list string)
    : list category * list string :=
  match keys with
  | [] => (categories, seen)
  | k :: rest =>
      match dict_lookup data k with
      | None => known_loop data rest categories seen
      | Some entry =>
          let seen := k :: seen in
          match entry with
          | PDict e =>
              match make_category k e k (5 * 3600) with
              | Some c => known_loop data rest (categories ++ [c]) seen
              | None => known_loop data rest categories seen
              end
          | _ => known_loop data rest categories seen
          end
      end
  end.

(** Second loop (lines 112-128) over [data.items()]. *)
Fixpoint leftover_loop (items : pydict) (seen : list string)
    (categories : list category) : list category :=
  match items with
  | [] => categories
  | (k, entry) :: rest =>
      match entry with
      | PDict e =>
          if str_in k seen then leftover_loop rest seen categories
          else
            match make_category k e (title (replace_underscores k)) (7 * 24 * 3600) with
            | Some c => leftover_loop rest seen (categories ++ [c])
            | None => leftover_loop rest seen categories
            end
      | _ => leftover_loop rest seen categories
      end
  end.

Definition parse_usage (data : pydict) : list category :=
  let '(categories, seen) := known_loop data CATEGORY_ORDER [] [] in
  leftover_loop data seen categories.

(** The value [parse_usage] stores for an entry: the raw ["utilization"]
    unless it is missing or [null], then [0.0]. *)
Definition stored_utilization (entry : pydict) : pyval :=
  if is_none (dict_get entry "utilization") then PNum 0
  else dict_get entry "utilization".

(** [v] is a number between 0 and 100. *)
Definition in_percent_range (v : pyval) : Prop :=
  match v with
  | PNum q => (0 <= q /\ q <= 100)%Q
  | _ => False
  end.

(** What holds of every record in the list: it comes from an object-valued
    entry of [data] and stores that entry's utilization. *)
Definition from_entry (data : pydict) (c : category) : Prop :=
  exists entry, In (key c, PDict entry) data /\
                utilization c = stored_utilization entry.

(** A payload whose session quota is overdrawn. *)
Definition over_quota_payload : pydict :=
  [ ("five_hour", PDict [ ("utilization", PNum 150) ]) ].

(** ** Glide-slope calculator (lines 132-146) *)

(** How a call returns: with a value, or with an exception no handler of the
    function catches. *)
Inductive outcome (A : Type) : Type :=
| Returns (a : A)
| Raises (exn : string).
Arguments Returns {A} a.
Arguments Raises {A} exn.

(** What [datetime.fromisoformat] does with a text.  A text that carries a
    UTC offset gives an aware datetime, an absolute instant, here in seconds
    since the epoch; a text without one gives a naive datetime, a wall-clock
    reading; any other text raises [ValueError]. *)
Inductive isoparse : Type :=
| IsoValueError
| IsoNaive (wall : Q)
| IsoAware (instant : Q).

(** [s.replace("Z", "+00:00")] *)
Fixpoint replace_Z (s : string) : string :=
  match s with
  | EmptyString => EmptyString
  | String c rest =>
      if Ascii.eqb c "Z"%char then ("+00:00" ++ replace_Z rest)%string
      else String c (replace_Z rest)
  end.

Definition Qltb (a b : Q) : bool := negb (Qle_bool b a).

(** Python's two-argument [min] and [max]: the first argument is returned
    unless the second is strictly smaller (larger). *)
Definition py_min (a b : Q) : Q := if Qltb b a then b else a.
Definition py_max (a b : Q) : Q := if Qltb a b then b else a.

Section GlideSlope.

(** The standard-library parser, a parameter of the model. *)
Variable fromisoformat : string -> isoparse.

(** [now] is the reading of [datetime.now(timezone.utc)] at line 140.
    Subtracting the aware [now] from a naive datetime (line 141) raises
    [TypeError], and line 141 is outside the [try] of lines 136-139. *)
Definition calc_glide_slope (resets_at_str : pyval) (window_seconds : Z) (now : Q)
    : outcome Q :=
  if negb (py_truthy resets_at_str) then Returns 0%Q
  else
    match resets_at_str with
    | PStr s =>
        match fromisoformat (replace_Z s) with
        | IsoValueError => Returns 0%Q
        | IsoNaive _ => Raises "TypeError"
        | IsoAware resets_at =>
            let remaining := (resets_at - now)%Q in
            let elapsed := (inject_Z window_seconds - remaining)%Q in
            if window_seconds <=? 0 then Returns 0%Q
            else
              let pct := (elapsed / inject_Z window_seconds * 100)%Q in
              Returns (py_max 0 (py_min 100 pct))
        end
    | _ => Returns 0%Q (* no [replace] attribute: AttributeError, caught *)
    end.

End GlideSlope.

(** A parser that reads every text as a wall-clock time without offset, and
    one that reads every text as the instant [t]; they instantiate the
    parameter in the examples. *)
Definition parse_all_naive : string -> isoparse := fun _ => IsoNaive 0.
Definition parse_all_aware (t : Q) : string -> isoparse := fun _ => IsoAware t.

(** ** Bar renderer (lines 217-271) *)

(** [round(x)] on a float: to the nearest integer, ties to the even one. *)
Definition py_round (x : Q) : Z :=
  let f := Qfloor x in
  let r := (x - inject_Z f)%Q in
  if Qltb r (1 # 2) then f
  else if Qltb (1 # 2) r then f + 1
  else if Z.even f then f else f + 1.

(** [curses.color_pair(n)], possibly or-ed with [curses.A_BOLD]. *)
Record attr : Type := mkAttr {
  color_pair : Z;
  bold : bool
}.

(** One call [win.addstr(row, col, text, attr)].  A call curses rejects
    raises [curses.error], which every call site swallows. *)
Record write : Type := mkWrite {
  row : Z;
  col : Z;
  text : string;
  wattr : attr
}.

(** Lines 230-231 and 232-233, for the width in force there. *)
Definition usage_pos (width : Z) (usage_pct : Q) : Z :=
  Z.max 0 (Z.min width (py_round (usage_pct / 100 * inject_Z width)%Q)).
Definition glide_pos (width : Z) (glide_pct : Q) : Z :=
  Z.max 0 (Z.min (width - 1) (py_round (glide_pct / 100 * inject_Z width)%Q)).

(** The write of one iteration of the loop body (lines 242-271). *)
Definition bar_cell (y x : Z) (usage_p glide_p : Z) (usage_pct glide_pct : Q) (i : Z)
    : write :=
  let is_marker := i =? glide_p in
  let is_filled := i <? usage_p in
  if is_marker then
    if Qltb glide_pct usage_pct
    then mkWrite y (x + i) MARKER_CHAR (mkAttr 4 true)
    else mkWrite y (x + i) MARKER_CHAR (mkAttr 8 true)
  else if is_filled then
    if Qltb glide_pct usage_pct && (i >=? glide_p)
    then mkWrite y (x + i) FILL_CHAR (mkAttr 2 false)
    else mkWrite y (x + i) FILL_CHAR (mkAttr 1 false)
  else mkWrite y (x + i) EMPTY_CHAR (mkAttr 3 false).

(** The [for] loop of lines 235-271 over the remaining indices, with its two
    [break]s. *)
Fixpoint bar_loop (max_h max_w y x avail : Z) (usage_p glide_p : Z)
    (usage_pct glide_pct : Q) (indices : list Z) : list write :=
  match indices with
  | [] => []
  | i :: rest =>
      if i >=? avail then []
      else if (y =? max_h - 1) && (x + i =? max_w - 1) then []
      else bar_cell y x usage_p glide_p usage_pct glide_pct i
           :: bar_loop max_h max_w y x avail usage_p glide_p usage_pct glide_pct rest
  end.

(** [range(n)] *)
Definition range (n : Z) : list Z := map Z.of_nat (seq 0 (Z.to_nat n)).

(** The bar width lines 230-271 work with: the requested width, clipped at
    line 228 to the columns the window has from [x] on. *)
Definition bar_width (max_w x width : Z) : Z := Z.min width (max_w - x).

(** [draw_bar(win, y, x, width, usage_pct, glide_pct)] on a window of
    [max_h] rows and [max_w] columns: the writes it issues, in order. *)
Definition draw_bar (max_h max_w y x width : Z) (usage_pct glide_pct : Q) : list write :=
  if width <? 3 then []
  else if y >=? max_h then []
  else
    let avail := max_w - x in
    if avail <? 3 then []
    else
      let width := Z.min width avail in
      let usage_p := usage_pos width usage_pct in
      let glide_p := glide_pos width glide_pct in
      bar_loop max_h max_w y x avail usage_p glide_p usage_pct glide_pct (range width).

(** The five looks of a cell, after the colour pairs of [init_colors]. *)
Inductive cell_state : Type :=
| FilledNormal
| FilledOver
| Empty
| MarkerBlendFilled
| MarkerBlendEmpty.

Definition is_marker_write (w : write) : bool := String.eqb (text w) MARKER_CHAR.

Definition cell_of (w : write) : cell_state :=
  if is_marker_write w then
    if color_pair (wattr w) =? 4 then MarkerBlendFilled else MarkerBlendEmpty
  else if color_pair (wattr w) =? 1 then FilledNormal
  else if color_pair (wattr w) =? 2 then FilledOver
  else Empty.



(** ** Dashboard loop (lines 363-449) *)

(** The [nonlocal] variables of [main], lines 375-381. *)
Record loop_state : Type := mkLoop {
  has_focus : bool;
  categories : list category;
  last_fetch_time : option Q;
  last_fetch_attempt : Q;
  error_msg : option string;
  escape_buf : list Z;
  escape_time : Q
}.

(** What one call of [do_fetch] gets from outside: the two readings of
    [time.time()] (lines 385 and 396) and the pairs that
    [get_access_token()] and [fetch_usage(token)] return.  The first
    component of [usage_result] is read on success only, where the
    collaborator returns the decoded mapping. *)
Record fetch_io : Type := mkFetchIO {
  attempt_clock : Q;
  token_result : option string * option string;
  usage_result : pydict * option string;
  success_clock : Q
}.

(** Lines 383-396. *)
Definition do_fetch (st : loop_state) (io : fetch_io) : loop_state :=
  let last_fetch_attempt' := attempt_clock io in
  let '(token, err) := token_result io in
  if str_truthy err then
    mkLoop (has_focus st) (categories st) (last_fetch_time st) last_fetch_attempt'
           err (escape_buf st) (escape_time st)
  else
    let '(data, err) := usage_result io in
    if str_truthy err then
      mkLoop (has_focus st) (categories st) (last_fetch_time st) last_fetch_attempt'
             err (escape_buf st) (escape_time st)
    else
      mkLoop (has_focus st) (parse_usage data) (Some (success_clock io)) last_fetch_attempt'
             None (escape_buf st) (escape_time st).

(** What one iteration of the [while] loop gets from outside: the value of
    [getch()] (-1 when the one-second timeout expires), the clock readings
    of lines 411, 433 and 437, and the collaborators' answers for the
    [do_fetch] of line 428 and for the one of lines 441/444.  A field is
    read only when its line runs. *)
Record tick : Type := mkTick {
  ch : Z;
  key_clock : Q;
  manual_fetch : fetch_io;
  stale_clock : Q;
  now_clock : Q;
  sched_fetch : fetch_io
}.

Definition KEY_RESIZE : Z := 410.

Definition set_escape (st : loop_state) (buf : list Z) (t : Q) : loop_state :=
  mkLoop (has_focus st) (categories st) (last_fetch_time st) (last_fetch_attempt st)
         (error_msg st) buf t.

Definition set_focus (st : loop_state) (f : bool) : loop_state :=
  mkLoop f (categories st) (last_fetch_time st) (last_fetch_attempt st)
         (error_msg st) (escape_buf st) (escape_time st).

Definition nonempty {A : Type} (l : list A) : bool :=
  match l with
  | [] => false
  | _ => true
  end.

(** [buf[i]]; every use is guarded by a test of [len(buf)]. *)
Definition item (buf : list Z) (i : nat) : Z := nth i buf 0.

(** Lines 409-430: the [if]/[elif] chain on the key.  [None] is the
    [break] of line 426. *)
Definition handle_key (st : loop_state) (tk : tick) : option loop_state :=
  let c := ch tk in
  if c =? 27 then Some (set_escape st [27] (key_clock tk))
  else if nonempty (escape_buf st) then
    let buf := (escape_buf st ++ [c])%list in
    if (Nat.eqb (List.length buf) 2) && (item buf 0 =? 27) && (c =? 91) then
      Some (set_escape st buf (escape_time st))
    else if (Nat.eqb (List.length buf) 3) && (item buf 0 =? 27) && (item buf 1 =? 91) then
      let st := if c =? 73 then set_focus st true
                else if c =? 79 then set_focus st false
                else st in
      Some (set_escape st [] (escape_time st))
    else Some (set_escape st [] (escape_time st))
  else if (c =? 113) || (c =? 81) then None
  else if (c =? 114) || (c =? 82) then Some (do_fetch st (manual_fetch tk))
  else if c =? KEY_RESIZE then Some st
  else Some st.

(** Lines 432-434. *)
Definition clear_stale (st : loop_state) (tk : tick) : loop_state :=
  if nonempty (escape_buf st) && Qltb (1 # 2) (stale_clock tk - escape_time st)
  then set_escape st [] (escape_time st)
  else st.

(** Lines 436-444. *)
Definition refresh_check (st : loop_state) (tk : tick) : loop_state :=
  let now := now_clock tk in
  match last_fetch_time st with
  | Some t =>
      let interval := if has_focus st then REFRESH_FOCUSED else REFRESH_UNFOCUSED in
      if Qle_bool interval (now - t) then do_fetch st (sched_fetch tk) else st
  | None =>
      if str_truthy (error_msg st) && Qle_bool 10 (now - last_fetch_attempt st)
      then do_fetch st (sched_fetch tk)
      else st
  end.

(** One iteration of the [while True] body after drawing; [None] when the
    loop is left. *)
Definition step (st : loop_state) (tk : tick) : option loop_state :=
  match handle_key st tk with
  | None => None
  | Some st1 => Some (refresh_check (clear_stale st1 tk) tk)
  end.

(** The loop on a finite trace of inputs. *)
Fixpoint run (st : loop_state) (ticks : list tick) : option loop_state :=
  match ticks with
  | [] => Some st
  | tk :: rest =>
      match step st tk with
      | None => None
      | Some st' => run st' rest
      end
  end.

(** Lines 375-381. *)
Definition init_state : loop_state :=
  mkLoop true [] None 0 None [] 0.

(** The states the loop can be in at the top of an iteration: the one after
    the initial fetch of line 399, and those an iteration leads to. *)
Inductive reachable : loop_state -> Prop :=
| reach_initial_fetch : forall io, reachable (do_fetch init_state io)
| reach_step : forall st tk st',
    reachable st -> step st tk = Some st' -> reachable st'.

(** The three states of the focus parser, read off [escape_buf]. *)
Inductive parser_state : Type :=
| Idle
| SawEsc
| SawEscBracket
| OtherBuffer.

Definition parser_state_of (st : loop_state) : parser_state :=
  match escape_buf st with
  | [] => Idle
  | [27] => SawEsc
  | [27; 91] => SawEscBracket
  | _ => OtherBuffer
  end.

(** The condition under which the scheduler is to fetch at time [now]. *)
Definition refresh_due (st : loop_state) (now : Q) : Prop :=
  (exists t, last_fetch_time st = Some t /\
             ((has_focus st = true /\ 30 <= now - t) \/
              (has_focus st = false /\ 600 <= now - t)))%Q
  \/ (last_fetch_time st = None /\ str_truthy (error_msg st) = true /\
      10 <= now - last_fetch_attempt st)%Q.

(** The state in which the scheduler check of an iteration runs. *)
Definition before_refresh (st : loop_state) (tk : tick) : option loop_state :=
  match handle_key st tk with
  | None => None
  | Some st1 => Some (clear_stale st1 tk)
  end.

(** A fetch that does nothing unusual, for the examples: the keychain gives a
    token and the endpoint gives [data]. *)
Definition fetch_ok (t_attempt t_success : Q) (data : pydict) : fetch_io :=
  mkFetchIO t_attempt (Some "token", None) (data, None) t_success.

Definition fetch_keychain_error (t_attempt : Q) (msg : string) : fetch_io :=
  mkFetchIO t_attempt (None, Some msg) ([], None) t_attempt.

Definition fetch_network_error (t_attempt : Q) (msg : string) : fetch_io :=
  mkFetchIO t_attempt (Some "token", None) ([], Some msg) t_attempt.

(** A key press at clock reading [t] during which no fetch answers
    anything of interest. *)
Definition key_at (c : Z) (t : Q) : tick :=
  mkTick c t (fetch_ok t t []) t t (fetch_ok t t []).

(** The invariant of the fetch variables: a success is on record or an
    error is set. *)
Definition fetch_settled (st : loop_state) : Prop :=
  last_fetch_time st <> None \/ str_truthy (error_msg st) = true.

(** The loop right after a first fetch that succeeded at clock reading 0
    with an empty payload. *)
Definition started : loop_state := do_fetch init_state (fetch_ok 0 0 []).

(** An iteration whose scheduler check triggers a fetch that takes from
    [t] to [t_done]. *)
Definition key_then_fetch (c : Z) (t t_done : Q) : tick :=
  mkTick c t (fetch_ok t t []) t t (fetch_ok t t_done []).

(** ** Reset-time and update-time formatters (lines 149-192) *)

(** [str(n)] of an integer, as an f-string prints it. *)
Definition str_of_Z (z : Z) : string := NilZero.string_of_int (Z.to_int z).

(** [int(x)] on a float: truncation towards zero. *)
Definition py_int (x : Q) : Z :=
  if Qle_bool 0 x then Qfloor x else Qceiling x.

(** [x % m] on floats, for a positive [m]: the remainder of the floored
    division. *)
Definition py_mod (x m : Q) : Q := (x - m * inject_Z (Qfloor (x / m)))%Q.

(** [strftime("%M")]: the minute in two digits. *)
Definition two_digits (n : Z) : string :=
  if n <? 10 then ("0" ++ str_of_Z n)%string else str_of_Z n.

(** What lines 171-177 read from [resets_at.astimezone()]: the weekday as
    [strftime("%a")] prints it, the hour from 0 to 23 and the minute. *)
Record local_time : Type := mkLocal {
  weekday_abbr : string;
  local_hour : Z;
  local_minute : Z
}.

Section ResetTime.

(** The standard-library parser and the conversion of an instant to the
    viewer's time zone, parameters of the model. *)
Variable fromisoformat : string -> isoparse.
Variable astimezone : Q -> local_time.

(** [now] is the reading of [datetime.now(timezone.utc)] at line 157; as in
    [calc_glide_slope], line 158 raises [TypeError] on a naive datetime. *)
Definition format_reset_time (resets_at_str : pyval) (now : Q) : outcome string :=
  if negb (py_truthy resets_at_str) then Returns ""
  else
    match resets_at_str with
    | PStr s =>
        match fromisoformat (replace_Z s) with
        | IsoValueError => Returns ""
        | IsoNaive _ => Raises "TypeError"
        | IsoAware resets_at =>
            let remaining := (resets_at - now)%Q in
            if Qle_bool remaining 0 then Returns "Resetting now"
            else if Qltb remaining 3600 then
              let mins := py_int (remaining / 60) in
              Returns ("Resets in " ++ str_of_Z mins ++ " min")%string
            else if Qltb remaining (24 * 3600) then
              let hrs := py_int (remaining / 3600) in
              let mins := py_int (py_mod remaining 3600 / 60) in
              if mins >? 0
              then Returns ("Resets in " ++ str_of_Z hrs ++ " hr "
                            ++ str_of_Z mins ++ " min")%string
              else Returns ("Resets in " ++ str_of_Z hrs ++ " hr")%string
            else
              let local_reset := astimezone resets_at in
              let day := weekday_abbr local_reset in
              let hour := local_hour local_reset mod 12 in
              let hour := if hour =? 0 then 12 else hour in
              let ampm := if local_hour local_reset <? 12 then "AM" else "PM" in
              let minute := two_digits (local_minute local_reset) in
              Returns ("Resets " ++ day ++ " " ++ str_of_Z hour ++ ":"
                       ++ minute ++ " " ++ ampm)%string
        end
    | _ => Returns ""
    end.

End ResetTime.

(** [now] is the reading of [time.time()] at line 185. *)
Definition format_updated_ago (last_fetch_time : option Q) (now : Q) : string :=
  match last_fetch_time with
  | None => "Updated: never"
  | Some t =>
      let elapsed := (now - t)%Q in
      if Qltb elapsed 5 then "Updated: just now"
      else if Qltb elapsed 60 then
        ("Updated: " ++ str_of_Z (py_int elapsed) ++ "s ago")%string
      else if Qltb elapsed 3600 then
        ("Updated: " ++ str_of_Z (py_int (elapsed / 60)) ++ "m ago")%string
      else ("Updated: " ++ str_of_Z (py_int (elapsed / 3600)) ++ "h ago")%string
  end.

(** A local time for the examples: every instant is shown as Tuesday,
    half past midnight. *)
Definition always_tuesday : Q -> local_time := fun _ => mkLocal "Tue" 0 30.

(** ** Colour pairs (lines 195-214) *)




(** ** Auxiliary notions for the properties *)

(** Lines 96-101 and 113-118: the entry is an object and one of its two
    fields is there. *)
Definition renderable_entry (v : pyval) : bool :=
  match v with
  | PDict e =>
      negb (is_none (dict_get e "utilization") && is_none (dict_get e "resets_at"))
  | _ => false
  end.

Definition renderable (data : pydict) (k : string) : bool :=
  match dict_lookup data k with
  | Some v => renderable_entry v
  | None => false
  end.

(** The items the second loop turns into a category. *)
Definition leftover_item (kv : string * pyval) : bool :=
  negb (str_in (fst kv) CATEGORY_ORDER) && renderable_entry (snd kv).

(** The fetch fails: one of the two [if err:] of [do_fetch] fires. *)
Definition fetch_fails (io : fetch_io) : bool :=
  str_truthy (snd (token_result io)) || str_truthy (snd (usage_result io)).

(** Every fetch an iteration could make fails. *)
Definition tick_fetches_fail (tk : tick) : Prop :=
  fetch_fails (manual_fetch tk) = true /\ fetch_fails (sched_fetch tk) = true.

(** The fetch variables of the loop. *)
Definition fetch_view (st : loop_state)
    : list category * option Q * Q * option string :=
  (categories st, last_fetch_time st, last_fetch_attempt st, error_msg st).

(** The buffer holds nothing, [ESC], or [ESC] [[]. *)
Definition buffer_well_formed (st : loop_state) : Prop :=
  escape_buf st = [] \/ escape_buf st = [27] \/ escape_buf st = [27; 91].

(** A key press at clock reading [t] during which every fetch fails. *)
Definition key_offline (c : Z) (t : Q) : tick :=
  mkTick c t (fetch_network_error t "Network error: timed out") t t
         (fetch_network_error t "Network error: timed out").

(** A payload with both known and unknown keys, a non-object value and an
    object that has neither field. *)
Definition mixed_payload : pydict :=
  [ ("zeta_pool", PDict [ ("utilization", PNum 12) ]);
    ("seven_day", PDict [ ("resets_at", PStr "2025-06-01T12:00:00+00:00") ]);
    ("note", PStr "n/a");
    ("five_hour", PDict [ ("utilization", PNum 80);
                          ("resets_at", PStr "2025-06-01T12:00:00+00:00") ]);
    ("seven_day_opus", PDict [ ("utilization", PNone) ]) ].

(** The window of a key: five hours for the session, seven days else. *)
Definition window_of (k : string) : Z :=
  if String.eqb k "five_hour" then 18000 else 604800.

(** ** The frame (lines 274-360) *)

(** [curses.A_BOLD], [curses.A_DIM], or neither. *)
Inductive emphasis : Type :=
| Plain
| Bold
| Dim.

(** One call [win.addstr(row, col, text, attr)] of [draw_ui], with the
    colour pair and the emphasis of [attr]; pair 0 when no [attr] is
    given. *)
Record ui_call : Type := mkCall {
  call_row : Z;
  call_col : Z;
  call_text : string;
  call_pair : Z;
  call_emph : emphasis
}.

(** A write of [draw_bar] as a call. *)
Definition call_of_write (w : write) : ui_call :=
  mkCall (row w) (col w) (text w) (color_pair (wattr w))
         (if bold (wattr w) then Bold else Plain).

(** [len(s)] *)
Definition len (s : string) : Z := Z.of_nat (String.length s).

(** [s[:n]] for [n] of at least 0. *)
Definition slice_to (s : string) (n : Z) : string := substring 0 (Z.to_nat n) s.

Definition MARGIN : Z := 2.
Definition TITLE : string := "Claude Usage Monitor".
Definition FOOTER : string := "q: quit  r: refresh".

(** The number [draw_bar] gets as [usage_pct]: a JSON number, or a
    boolean, which Python counts as 1 or 0. *)
Definition as_number (v : pyval) : option Q :=
  match v with
  | PNum q => Some q
  | PBool b => Some (if b then 1 else 0)%Q
  | _ => None
  end.

Section Frame.

(** Parameters of the model: the standard-library parser and time-zone
    conversion; [format(x, ".0f")] on a number; whether curses rejects a
    call with [curses.error]; and the readings of the clock, in the order
    of the calls that read it ([time.time()] in [format_updated_ago], then
    for the category at position [k] the two [datetime.now] of
    [calc_glide_slope] and [format_reset_time]). *)
Variable fromisoformat : string -> isoparse.
Variable astimezone : Q -> local_time.
Variable format_0f : Q -> string.
Variable rejects : ui_call -> bool.
Variable clock : nat -> Q.

(** The calls made by a [try] block with [except curses.error: pass]: a
    call that is rejected ends the block. *)
Fixpoint attempt (calls : list ui_call) : list ui_call :=
  match calls with
  | [] => []
  | c :: rest => c :: (if rejects c then [] else attempt rest)
  end.

(** [f"{usage:.0f}% used"]: a string has no format code [f]
    ([ValueError]); [None], lists and objects take no format string
    ([TypeError]). *)
Definition format_usage (usage : pyval) : outcome string :=
  match usage with
  | PStr _ => Raises "ValueError"
  | _ =>
      match as_number usage with
      | Some q => Returns (format_0f q ++ "% used")%string
      | None => Raises "TypeError"
      end
  end.

(** Lines 318-347: the loop over the categories from row [row] on, for the
    categories from position [k] on.  It returns the calls and the row it
    ends with. *)
Fixpoint draw_categories (max_h max_w : Z) (row : Z) (k : nat) (cats : list category)
    : outcome (list ui_call * Z) :=
  match cats with
  | [] => Returns ([], row)
  | cat :: rest =>
      if row + 3 >=? max_h - 2 then Returns ([], row)
      else
        let content_width := max_w - MARGIN * 2 in
        let usage := utilization cat in
        match calc_glide_slope fromisoformat (resets_at cat) (window_seconds cat)
                (clock (2 * k + 1)) with
        | Raises e => Raises e
        | Returns glide =>
        match format_reset_time fromisoformat astimezone (resets_at cat)
                (clock (2 * k + 2)) with
        | Raises e => Raises e
        | Returns reset_str =>
        match format_usage usage with
        | Raises e => Raises e
        | Returns usage_str =>
            let line1 :=
              attempt
                (mkCall row MARGIN (name cat) 5 Bold
                 :: (if len usage_str <? content_width - len (name cat)
                     then [mkCall row (max_w - MARGIN - len usage_str) usage_str 5 Plain]
                     else [])) in
            let row := row + 1 in
            let line2 :=
              if negb (String.eqb reset_str "")
              then attempt [mkCall row MARGIN reset_str 5 Dim]
              else [] in
            let row := row + 1 in
            let bar :=
              match as_number usage with
              | Some u => map call_of_write
                              (draw_bar max_h max_w row MARGIN content_width u glide)
              | None => []
              end in
            let row := row + 2 in
            match draw_categories max_h max_w row (S k) rest with
            | Raises e => Raises e
            | Returns (calls, row') => Returns (line1 ++ line2 ++ bar ++ calls, row')%list
            end
        end end end
  end.

(** [draw_ui(win, categories, last_fetch_time, error_msg)] on a window of
    [max_h] rows and [max_w] columns: the calls of [addstr] it makes, in
    order, or the exception that leaves it. *)
Definition draw_ui (max_h max_w : Z) (categories : list category)
    (last_fetch_time : option Q) (error_msg : option string)
    : outcome (list ui_call) :=
  if (max_h <? 3) || (max_w <? 20)
  then Returns (attempt [mkCall 0 0 "Terminal too small" 0 Plain])
  else
    let content_width := max_w - MARGIN * 2 in
    let updated := format_updated_ago last_fetch_time (clock 0) in
    let row := 0 in
    let header :=
      attempt
        (mkCall row MARGIN TITLE 6 Bold
         :: (if len updated <? content_width - len TITLE - 2
             then [mkCall row (max_w - MARGIN - len updated) updated 5 Plain]
             else [])) in
    let row := row + 2 in
    let error_line :=
      match error_msg with
      | Some msg =>
          if str_truthy error_msg
          then attempt [mkCall row MARGIN (slice_to msg content_width) 7 Plain]
          else []
      | None => []
      end in
    let row := if str_truthy error_msg then row + 2 else row in
    let no_data := negb (nonempty categories) && negb (str_truthy error_msg) in
    let no_data_line :=
      if no_data
      then attempt [mkCall row MARGIN "No usage data available" 5 Plain]
      else [] in
    let row := if no_data then row + 1 else row in
    match draw_categories max_h max_w row 0 categories with
    | Raises e => Raises e
    | Returns (category_calls, row) =>
        let footer_row := max_h - 1 in
        let footer_line :=
          if footer_row >? row then
            let footer_x := max_w - MARGIN - len FOOTER in
            if footer_x >=? MARGIN
            then attempt [mkCall footer_row footer_x FOOTER 5 Dim]
            else []
          else [] in
        Returns (header ++ error_line ++ no_data_line ++ category_calls
                 ++ footer_line)%list
    end.

End Frame.

(** For the examples: a formatter that prints the rounded number, a
    terminal that rejects no call, and a clock that stands still. *)
Definition format_rounded : Q -> string := fun q => str_of_Z (py_round q).
Definition accepts_all : ui_call -> bool := fun _ => false.
Definition frozen_clock (t : Q) : nat -> Q := fun _ => t.







(** * Properties *)

(** ** Category normalizer *)

Lemma dict_lookup_In (d : pydict) (k : string) (v : pyval) :
  dict_lookup d k = Some v -> In (k, v) d.
Proof.
  induction d as [| [k' v'] d IH]; simpl; [discriminate |].
  destruct (String.eqb k' k) eqn:E.
  - intros [= ->]. apply String.eqb_eq in E. subst. now left.
  - intros H. right. now apply IH.
Qed.

Lemma make_category_spec k e fn fw c :
  make_category k e fn fw = Some c ->
  key c = k /\ utilization c = stored_utilization e /\
  resets_at c = dict_get e "resets_at".
Proof.
  unfold make_category, stored_utilization.
  destruct (is_none (dict_get e "utilization") && is_none (dict_get e "resets_at"));
    [discriminate |].
  intros [= <-]. simpl. auto.
Qed.

Lemma known_loop_from_entry data keys :
  forall cats seen,
    Forall (from_entry data) cats ->
    Forall (from_entry data) (fst (known_loop data keys cats seen)).
Proof.
  induction keys as [| k keys IH]; intros cats seen Hc; simpl; [exact Hc |].
  destruct (dict_lookup data k) as [entry |] eqn:Hl; [| now apply IH].
  destruct entry; try now apply IH.
  destruct (make_category k d k _) as [c |] eqn:Hm; [| now apply IH].
  apply IH. apply Forall_app. split; [exact Hc |].
  constructor; [| constructor].
  apply make_category_spec in Hm. destruct Hm as (Hk & Hu & _).
  exists d. rewrite Hk. split; [now apply dict_lookup_In | exact Hu].
Qed.

Lemma leftover_loop_from_entry data seen items :
  forall cats,
    incl items data ->
    Forall (from_entry data) cats ->
    Forall (from_entry data) (leftover_loop items seen cats).
Proof.
  induction items as [| [k entry] items IH]; intros cats Hi Hc; simpl; [exact Hc |].
  assert (Hi' : incl items data) by (intros x Hx; apply Hi; now right).
  destruct entry; try now apply IH.
  destruct (str_in k seen); [now apply IH |].
  destruct (make_category k d _ _) as [c |] eqn:Hm; [| now apply IH].
  apply IH; [exact Hi' |]. apply Forall_app. split; [exact Hc |].
  constructor; [| constructor].
  apply make_category_spec in Hm. destruct Hm as (Hk & Hu & _).
  exists d. rewrite Hk. split; [apply Hi; now left | exact Hu].
Qed.

(** C1, as the source has it: every record [parse_usage] produces stores the
    utilization of the raw entry it was built from, unchanged, or 0.0 when
    the entry has none or [null].  Nothing is clamped, so the stored value
    is in the range from 0 to 100 exactly when the raw one is. *)
Theorem parse_usage_keeps_raw_utilization (data : pydict) (c : category) :
  In c (parse_usage data) ->
  exists entry,
    In (key c, PDict entry) data /\
    utilization c = stored_utilization entry /\
    (in_percent_range (utilization c) <-> in_percent_range (stored_utilization entry)).
Proof.
  intros Hin.
  assert (HF : Forall (from_entry data) (parse_usage data)).
  { unfold parse_usage.
    pose proof (known_loop_from_entry data CATEGORY_ORDER [] [] (Forall_nil _)) as Hk.
    destruct (known_loop data CATEGORY_ORDER [] []) as [cats seen]. simpl in Hk.
    apply leftover_loop_from_entry; [apply incl_refl | exact Hk]. }
  rewrite Forall_forall in HF. destruct (HF c Hin) as (entry & He & Hu).
  exists entry. repeat split; try assumption; rewrite Hu; auto.
Qed.

Lemma parse_usage_keeps_raw_utilization_witness :
  In (mkCategory "five_hour" "Current session" (PNum 150) PNone 18000)
     (parse_usage over_quota_payload) /\
  exists entry,
    In ("five_hour", PDict entry) over_quota_payload /\
    PNum 150 = stored_utilization entry /\
    (in_percent_range (PNum 150) <-> in_percent_range (stored_utilization entry)).
Proof.
  split.
  - vm_compute. left. reflexivity.
  - apply (parse_usage_keeps_raw_utilization over_quota_payload
             (mkCategory "five_hour" "Current session" (PNum 150) PNone 18000)).
    vm_compute. left. reflexivity.
Defined.

(** C1, as the claim has it, fails: a raw utilization of 150 is stored as
    150. *)
Lemma parse_usage_does_not_clamp :
  exists c, In c (parse_usage over_quota_payload) /\
            utilization c = PNum 150 /\
            ~ in_percent_range (utilization c).
Proof.
  exists (mkCategory "five_hour" "Current session" (PNum 150) PNone 18000).
  split; [vm_compute; now left |].
  split; [reflexivity |].
  simpl. intros [_ H]. revert H. unfold Qle. simpl. lia.
Qed.

(** ** Glide-slope calculator *)

Lemma Qltb_lt (a b : Q) : Qltb a b = true <-> (a < b)%Q.
Proof.
  unfold Qltb. rewrite negb_true_iff.
  split; intros H.
  - apply Qnot_le_lt. intros Hle. apply Qle_bool_iff in Hle. congruence.
  - destruct (Qle_bool b a) eqn:E; [| reflexivity].
    apply Qle_bool_iff in E. exfalso. apply (Qlt_not_le _ _ H E).
Qed.

Lemma Qltb_ge (a b : Q) : Qltb a b = false <-> (b <= a)%Q.
Proof.
  unfold Qltb. rewrite negb_false_iff. apply Qle_bool_iff.
Qed.

Lemma py_clamp_range (pct : Q) :
  (0 <= py_max 0 (py_min 100 pct) /\ py_max 0 (py_min 100 pct) <= 100)%Q.
Proof.
  unfold py_max, py_min.
  destruct (Qltb pct 100) eqn:E1.
  - apply Qltb_lt in E1.
    destruct (Qltb 0 pct) eqn:E2.
    + apply Qltb_lt in E2. split; lra.
    + split; lra.
  - destruct (Qltb 0 100) eqn:E2; split; lra.
Qed.

Lemma py_clamp_high (pct : Q) :
  (100 <= pct)%Q -> py_max 0 (py_min 100 pct) = 100%Q.
Proof.
  intros H. unfold py_max, py_min.
  assert (E : Qltb pct 100 = false) by now apply Qltb_ge.
  rewrite E. reflexivity.
Qed.

Lemma py_clamp_low (pct : Q) :
  (pct <= 0)%Q -> py_max 0 (py_min 100 pct) = 0%Q.
Proof.
  intros H. unfold py_max, py_min.
  assert (E : Qltb pct 100 = true) by (apply Qltb_lt; lra).
  rewrite E.
  assert (E' : Qltb 0 pct = false) by now apply Qltb_ge.
  rewrite E'. reflexivity.
Qed.

Section GlideSlopeFacts.

Variable fromisoformat : string -> isoparse.

(** Absent, empty or otherwise false [resets_at]: 0.0 (line 135). *)
Lemma calc_glide_slope_absent v w now :
  py_truthy v = false -> calc_glide_slope fromisoformat v w now = Returns 0%Q.
Proof.
  intros H. unfold calc_glide_slope. rewrite H. reflexivity.
Qed.

(** A text [fromisoformat] rejects: 0.0 (line 139). *)
Lemma calc_glide_slope_unparsable s w now :
  fromisoformat (replace_Z s) = IsoValueError ->
  calc_glide_slope fromisoformat (PStr s) w now = Returns 0%Q.
Proof.
  intros H. unfold calc_glide_slope. rewrite H.
  destruct (negb (py_truthy (PStr s))); reflexivity.
Qed.

(** On an absolute instant the function returns, and the value has the
    four properties the specification lists. *)
Lemma calc_glide_slope_aware s t w now :
  fromisoformat (replace_Z s) = IsoAware t ->
  exists r,
    calc_glide_slope fromisoformat (PStr s) w now = Returns r /\
    (0 <= r /\ r <= 100)%Q /\
    (w <= 0 -> r = 0%Q) /\
    (s <> "" -> 0 < w -> (t == now)%Q -> r = 100%Q) /\
    (0 < w -> (t == now + inject_Z w)%Q -> r = 0%Q).
Proof.
  intros Hp. unfold calc_glide_slope. rewrite Hp.
  destruct (negb (py_truthy (PStr s))) eqn:Ht.
  - exists 0%Q. split; [reflexivity |]. split; [split; lra |].
    split; [reflexivity |]. split; [| reflexivity].
    intros Hs. exfalso. simpl in Ht. rewrite negb_involutive in Ht.
    apply String.eqb_eq in Ht. contradiction.
  - destruct (w <=? 0) eqn:Hw.
    + exists 0%Q. apply Z.leb_le in Hw.
      split; [reflexivity |]. split; [split; lra |].
      split; [reflexivity |]. split; intros; lia.
    + apply Z.leb_gt in Hw.
      assert (HwQ : (0 < inject_Z w)%Q) by (unfold Qlt; simpl; lia).
      eexists. split; [reflexivity |].
      split; [apply py_clamp_range |].
      split; [intros; lia |].
      split.
      * intros _ _ Heq. apply py_clamp_high.
        assert (E : ((inject_Z w - (t - now)) / inject_Z w * 100 == 100)%Q)
          by (rewrite Heq; field; lra).
        rewrite E. lra.
      * intros _ Heq. apply py_clamp_low.
        assert (E : ((inject_Z w - (t - now)) / inject_Z w * 100 == 0)%Q)
          by (rewrite Heq; field; lra).
        rewrite E. lra.
Qed.

(** A truthy value that is not a string: 0.0 (line 139). *)
Lemma calc_glide_slope_not_a_string v w now :
  (forall s, v <> PStr s) ->
  calc_glide_slope fromisoformat v w now = Returns 0%Q.
Proof.
  intros H. unfold calc_glide_slope.
  destruct (negb (py_truthy v)); [reflexivity |].
  destruct v; try reflexivity. exfalso. now apply (H s).
Qed.

(** C5 at a timestamp text without UTC offset, such as
    ["2025-06-01T12:00:00"]: [fromisoformat] accepts it, the subtraction of
    line 141 raises [TypeError], and no value is returned.  The claim
    promises a value between 0 and 100 for every [resets_at]. *)
Theorem calc_glide_slope_offsetless_raises s wall w now :
  s <> "" ->
  fromisoformat (replace_Z s) = IsoNaive wall ->
  calc_glide_slope fromisoformat (PStr s) w now = Raises "TypeError".
Proof.
  intros Hs Hp. unfold calc_glide_slope. rewrite Hp.
  destruct (negb (py_truthy (PStr s))) eqn:Ht; [| reflexivity].
  exfalso. simpl in Ht. rewrite negb_involutive in Ht.
  apply String.eqb_eq in Ht. contradiction.
Qed.

End GlideSlopeFacts.

(** The scenario of a five-hour window that resets in two and a half
    hours: the window is half elapsed. *)
Example calc_glide_slope_half_window :
  exists r,
    calc_glide_slope (parse_all_aware 9000) (PStr "2025-06-01T12:00:00+00:00") 18000 0
    = Returns r /\ (r == 50)%Q.
Proof. eexists. split; [reflexivity |]. reflexivity. Qed.

Lemma calc_glide_slope_offsetless_raises_witness :
  "2025-06-01T12:00:00" <> "" /\
  parse_all_naive (replace_Z "2025-06-01T12:00:00") = IsoNaive 0 /\
  calc_glide_slope parse_all_naive (PStr "2025-06-01T12:00:00") 18000 1000
  = Raises "TypeError".
Proof.
  split; [discriminate |].
  split; [reflexivity |].
  apply (calc_glide_slope_offsetless_raises parse_all_naive
           "2025-06-01T12:00:00" 0 18000 1000); [discriminate | reflexivity].
Defined.

(** ** Bar renderer *)




Lemma glide_pos_range (w : Z) (g : Q) : 1 <= w -> 0 <= glide_pos w g < w.
Proof. unfold glide_pos. lia. Qed.

Lemma usage_pos_range (w : Z) (u : Q) : 0 <= w -> 0 <= usage_pos w u <= w.
Proof. unfold usage_pos. lia. Qed.




Lemma range_spec (n i : Z) : In i (range n) <-> 0 <= i < n.
Proof.
  unfold range. rewrite in_map_iff. split.
  - intros (k & <- & Hk). apply in_seq in Hk. lia.
  - intros H. exists (Z.to_nat i). split; [lia |]. apply in_seq. lia.
Qed.

Lemma bar_cell_col y x up gp u g i : col (bar_cell y x up gp u g i) = x + i.
Proof.
  unfold bar_cell.
  destruct (i =? gp), (i <? up), (Qltb g u), (i >=? gp); reflexivity.
Qed.

Lemma bar_cell_marker y x up gp u g i :
  is_marker_write (bar_cell y x up gp u g i) = (i =? gp).
Proof.
  unfold bar_cell.
  destruct (i =? gp), (i <? up), (Qltb g u), (i >=? gp); reflexivity.
Qed.


(** The look of the marker cell, lines 245-255. *)
Lemma bar_cell_marker_state y x up gp u g i :
  (i =? gp) = true ->
  cell_of (bar_cell y x up gp u g i) =
    if Qltb g u then MarkerBlendFilled else MarkerBlendEmpty.
Proof.
  intros H. unfold bar_cell. rewrite H.
  destruct (Qltb g u); reflexivity.
Qed.

Lemma bar_loop_In max_h max_w y x avail up gp u g indices c :
  In c (bar_loop max_h max_w y x avail up gp u g indices) ->
  exists i, In i indices /\ c = bar_cell y x up gp u g i.
Proof.
  induction indices as [| i rest IH]; simpl; [contradiction |].
  destruct (i >=? avail); [contradiction |].
  destruct ((y =? max_h - 1) && (x + i =? max_w - 1)); [contradiction |].
  intros [<- | H].
  - exists i. split; [now left | reflexivity].
  - destruct (IH H) as (j & Hj & ->). exists j. split; [now right | reflexivity].
Qed.

(** Off the bottom row no [break] fires: every index gets its write. *)
Lemma bar_loop_all max_h max_w y x avail up gp u g indices :
  y <> max_h - 1 ->
  (forall i, In i indices -> i < avail) ->
  bar_loop max_h max_w y x avail up gp u g indices
  = map (bar_cell y x up gp u g) indices.
Proof.
  intros Hy. induction indices as [| i rest IH]; intros Hi; simpl; [reflexivity |].
  assert (E1 : (i >=? avail) = false) by (specialize (Hi i (or_introl eq_refl)); lia).
  assert (E2 : (y =? max_h - 1) = false) by lia.
  rewrite E1, E2. simpl. f_equal. apply IH. intros j Hj. apply Hi. now right.
Qed.

(** The writes of [draw_bar], one by one. *)
Lemma draw_bar_In max_h max_w y x width u g c :
  In c (draw_bar max_h max_w y x width u g) ->
  let w := bar_width max_w x width in
  3 <= width /\ 3 <= w <= width /\
  exists i, 0 <= i < w /\
            c = bar_cell y x (usage_pos w u) (glide_pos w g) u g i.
Proof.
  unfold draw_bar, bar_width.
  destruct (width <? 3) eqn:E1; [contradiction |].
  destruct (y >=? max_h); [contradiction |].
  destruct (max_w - x <? 3) eqn:E2; [contradiction |].
  intros H. apply bar_loop_In in H. destruct H as (i & Hi & ->).
  apply range_spec in Hi.
  split; [lia |]. split; [lia |]. exists i. split; [exact Hi | reflexivity].
Qed.

(** Off the bottom row the marker cell is written. *)
Lemma draw_bar_marker_drawn max_h max_w y x width u g :
  3 <= width -> 3 <= max_w - x -> y < max_h - 1 ->
  exists m, In m (draw_bar max_h max_w y x width u g) /\ is_marker_write m = true.
Proof.
  intros Hw Ha Hy. unfold draw_bar.
  assert (E1 : (width <? 3) = false) by lia.
  assert (E2 : (y >=? max_h) = false) by lia.
  assert (E3 : (max_w - x <? 3) = false) by lia.
  rewrite E1, E2, E3.
  rewrite bar_loop_all; [| lia | intros i Hi; apply range_spec in Hi; lia].
  set (w := Z.min width (max_w - x)).
  exists (bar_cell y x (usage_pos w u) (glide_pos w g) u g (glide_pos w g)).
  split.
  - apply in_map. apply range_spec. apply glide_pos_range. lia.
  - rewrite bar_cell_marker. apply Z.eqb_refl.
Qed.

(** [draw_ui] calls [draw_bar] at column 2 with width [max_w - 4]
    (lines 286-287 and 346): there line 228 leaves the width as it is. *)
Lemma bar_width_in_draw_ui (max_w : Z) : bar_width max_w 2 (max_w - 2 * 2) = max_w - 4.
Proof. unfold bar_width. lia. Qed.





(** ** Fetching *)

Lemma do_fetch_parser st io :
  has_focus (do_fetch st io) = has_focus st /\
  escape_buf (do_fetch st io) = escape_buf st /\
  escape_time (do_fetch st io) = escape_time st.
Proof.
  unfold do_fetch.
  destruct (token_result io) as [token err1], (usage_result io) as [data err2].
  destruct (str_truthy err1); [simpl; auto |].
  destruct (str_truthy err2); simpl; auto.
Qed.

Lemma do_fetch_attempt st io :
  last_fetch_attempt (do_fetch st io) = attempt_clock io.
Proof.
  unfold do_fetch.
  destruct (token_result io) as [token err1], (usage_result io) as [data err2].
  destruct (str_truthy err1); [reflexivity |].
  destruct (str_truthy err2); reflexivity.
Qed.

(** C9: a fetch that fails, at the keychain or at the endpoint, stores that
    error and keeps the categories and the time of the last success; a fetch
    that succeeds stores the parsed categories, clears the error and stamps
    the time of success; either way the time of the attempt is stamped. *)
Theorem do_fetch_outcomes (st : loop_state) (io : fetch_io) :
  let keychain_err := snd (token_result io) in
  let network_err := snd (usage_result io) in
  let st' := do_fetch st io in
  last_fetch_attempt st' = attempt_clock io /\
  (str_truthy keychain_err = true ->
   error_msg st' = keychain_err /\
   categories st' = categories st /\
   last_fetch_time st' = last_fetch_time st) /\
  (str_truthy keychain_err = false -> str_truthy network_err = true ->
   error_msg st' = network_err /\
   categories st' = categories st /\
   last_fetch_time st' = last_fetch_time st) /\
  (str_truthy keychain_err = false -> str_truthy network_err = false ->
   error_msg st' = None /\
   categories st' = parse_usage (fst (usage_result io)) /\
   last_fetch_time st' = Some (success_clock io)).
Proof.
  unfold do_fetch.
  destruct (token_result io) as [token err1], (usage_result io) as [data err2].
  simpl.
  destruct (str_truthy err1) eqn:E1.
  - simpl. repeat split; auto; discriminate.
  - destruct (str_truthy err2) eqn:E2; simpl; repeat split; auto; discriminate.
Qed.

Lemma do_fetch_outcomes_witness :
  let st := mkLoop true (parse_usage over_quota_payload) (Some 70%Q) 70 None [] 0 in
  (str_truthy (Some "Keychain access timed out") = true /\
   let st' := do_fetch st (fetch_keychain_error 100 "Keychain access timed out") in
   last_fetch_attempt st' = 100%Q /\
   error_msg st' = Some "Keychain access timed out" /\
   categories st' = categories st /\
   last_fetch_time st' = Some 70%Q) /\
  (str_truthy (Some "Network error: timed out") = true /\
   let st' := do_fetch st (fetch_network_error 100 "Network error: timed out") in
   last_fetch_attempt st' = 100%Q /\
   error_msg st' = Some "Network error: timed out" /\
   categories st' = categories st /\
   last_fetch_time st' = Some 70%Q) /\
  (let st' := do_fetch st (fetch_ok 100 101 []) in
   last_fetch_attempt st' = 100%Q /\
   error_msg st' = None /\
   categories st' = parse_usage [] /\
   last_fetch_time st' = Some 101%Q).
Proof.
  intros st.
  split; [| split].
  - split; [reflexivity |].
    pose proof (do_fetch_outcomes st
                  (fetch_keychain_error 100 "Keychain access timed out")) as H.
    destruct H as (Ha & Hk & _). split; [exact Ha |]. exact (Hk eq_refl).
  - split; [reflexivity |].
    pose proof (do_fetch_outcomes st
                  (fetch_network_error 100 "Network error: timed out")) as H.
    destruct H as (Ha & _ & Hn & _). split; [exact Ha |]. exact (Hn eq_refl eq_refl).
  - pose proof (do_fetch_outcomes st (fetch_ok 100 101 [])) as H.
    destruct H as (Ha & _ & _ & Hs). split; [exact Ha |]. exact (Hs eq_refl eq_refl).
Defined.

(** ** Refresh scheduler *)

Lemma refresh_check_parser st tk :
  has_focus (refresh_check st tk) = has_focus st /\
  escape_buf (refresh_check st tk) = escape_buf st /\
  escape_time (refresh_check st tk) = escape_time st.
Proof.
  unfold refresh_check.
  destruct (last_fetch_time st).
  - destruct (Qle_bool _ _); [apply do_fetch_parser | auto].
  - destruct (str_truthy (error_msg st) && Qle_bool _ _);
      [apply do_fetch_parser | auto].
Qed.

Lemma refresh_check_due st tk :
  refresh_due st (now_clock tk) ->
  refresh_check st tk = do_fetch st (sched_fetch tk).
Proof.
  unfold refresh_due, refresh_check, REFRESH_FOCUSED, REFRESH_UNFOCUSED.
  intros [(t & Ht & Hcase) | (Hn & He & Hq)].
  - rewrite Ht.
    destruct Hcase as [(Hf & Hq) | (Hf & Hq)]; rewrite Hf;
      apply Qle_bool_iff in Hq; rewrite Hq; reflexivity.
  - rewrite Hn, He. apply Qle_bool_iff in Hq. rewrite Hq. reflexivity.
Qed.

Lemma refresh_check_not_due st tk :
  ~ refresh_due st (now_clock tk) ->
  refresh_check st tk = st.
Proof.
  unfold refresh_due, refresh_check, REFRESH_FOCUSED, REFRESH_UNFOCUSED.
  intros Hnot.
  destruct (last_fetch_time st) as [t |] eqn:Ht.
  - destruct (has_focus st) eqn:Hf.
    + destruct (Qle_bool 30 (now_clock tk - t)) eqn:Hq; [| reflexivity].
      exfalso. apply Hnot. left. exists t. split; [reflexivity |].
      left. split; [reflexivity | now apply Qle_bool_iff].
    + destruct (Qle_bool 600 (now_clock tk - t)) eqn:Hq; [| reflexivity].
      exfalso. apply Hnot. left. exists t. split; [reflexivity |].
      right. split; [reflexivity | now apply Qle_bool_iff].
  - destruct (str_truthy (error_msg st)) eqn:He; [| reflexivity].
    destruct (Qle_bool 10 (now_clock tk - last_fetch_attempt st)) eqn:Hq;
      [| reflexivity].
    exfalso. apply Hnot. right.
    split; [reflexivity |]. split; [reflexivity | now apply Qle_bool_iff].
Qed.

(** C8: in an iteration that reaches the scheduler check, with [st1] the
    state the check finds, the iteration ends with the fetch of lines 441/444
    exactly when [refresh_due] holds of [st1] at the reading [now] of line
    437: a success is on record and [now - last_fetch_time] is at least 30
    seconds with focus, 600 without; or no success is on record, an error is
    set and [now - last_fetch_attempt] is at least 10 seconds.  Otherwise the
    iteration ends in [st1]. *)
Theorem scheduler_fetches_exactly_when_due (st : loop_state) (tk : tick) (st1 : loop_state) :
  before_refresh st tk = Some st1 ->
  (refresh_due st1 (now_clock tk) ->
   step st tk = Some (do_fetch st1 (sched_fetch tk))) /\
  (~ refresh_due st1 (now_clock tk) -> step st tk = Some st1) /\
  last_fetch_attempt (do_fetch st1 (sched_fetch tk)) = attempt_clock (sched_fetch tk).
Proof.
  unfold before_refresh, step.
  destruct (handle_key st tk) as [s |]; [| discriminate].
  intros [= <-].
  split; [| split].
  - intros H. now rewrite refresh_check_due.
  - intros H. now rewrite refresh_check_not_due.
  - apply do_fetch_attempt.
Qed.

Lemma scheduler_fetches_exactly_when_due_witness :
  let st := mkLoop true [] (Some 70%Q) 70 None [] 0 in
  let tk := key_at (-1) 100 in
  before_refresh st tk = Some st /\
  refresh_due st (now_clock tk) /\
  step st tk = Some (do_fetch st (sched_fetch tk)).
Proof.
  intros st tk.
  assert (Hb : before_refresh st tk = Some st) by reflexivity.
  assert (Hd : refresh_due st (now_clock tk)).
  { left. exists 70%Q. split; [reflexivity |]. left. split; [reflexivity |].
    unfold Qle. simpl. lia. }
  split; [exact Hb |]. split; [exact Hd |].
  exact (proj1 (scheduler_fetches_exactly_when_due st tk st Hb) Hd).
Defined.

(** ** Focus event parser *)

Lemma clear_stale_view st tk :
  has_focus (clear_stale st tk) = has_focus st /\
  escape_time (clear_stale st tk) = escape_time st /\
  escape_buf (clear_stale st tk) =
    if nonempty (escape_buf st) && Qltb (1 # 2) (stale_clock tk - escape_time st)
    then [] else escape_buf st.
Proof.
  unfold clear_stale.
  destruct (nonempty (escape_buf st) && Qltb (1 # 2) (stale_clock tk - escape_time st));
    simpl; auto.
Qed.

(** The parser's variables after an iteration are those [handle_key] leaves,
    with the buffer emptied if the check of line 433 fires. *)
Lemma step_view st tk st1 :
  handle_key st tk = Some st1 ->
  exists st',
    step st tk = Some st' /\
    has_focus st' = has_focus st1 /\
    escape_time st' = escape_time st1 /\
    escape_buf st' =
      if nonempty (escape_buf st1) && Qltb (1 # 2) (stale_clock tk - escape_time st1)
      then [] else escape_buf st1.
Proof.
  intros H. unfold step. rewrite H. eexists. split; [reflexivity |].
  destruct (refresh_check_parser (clear_stale st1 tk) tk) as (Hf & Hb & Ht).
  destruct (clear_stale_view st1 tk) as (Hf' & Ht' & Hb').
  rewrite Hf, Hb, Ht. auto.
Qed.

Lemma handle_key_esc st tk :
  ch tk = 27 -> handle_key st tk = Some (set_escape st [27] (key_clock tk)).
Proof. intros H. unfold handle_key. rewrite H. reflexivity. Qed.

Lemma handle_key_bracket st tk :
  escape_buf st = [27] -> ch tk = 91 ->
  handle_key st tk = Some (set_escape st [27; 91] (escape_time st)).
Proof. intros Hb H. unfold handle_key. rewrite H, Hb. reflexivity. Qed.

Lemma handle_key_third st tk :
  escape_buf st = [27; 91] -> ch tk <> 27 ->
  handle_key st tk =
    Some (set_escape (if ch tk =? 73 then set_focus st true
                      else if ch tk =? 79 then set_focus st false
                      else st) [] (escape_time st)).
Proof.
  intros Hb H. unfold handle_key. rewrite Hb.
  assert (E : (ch tk =? 27) = false) by lia. rewrite E. simpl.
  destruct (ch tk =? 91), (ch tk =? 73), (ch tk =? 79); reflexivity.
Qed.

(** An iteration on ESC: whatever the parser held, a new sequence starts. *)
Lemma step_esc st tk :
  ch tk = 27 ->
  exists st',
    step st tk = Some st' /\
    has_focus st' = has_focus st /\
    escape_time st' = key_clock tk /\
    escape_buf st' =
      if Qltb (1 # 2) (stale_clock tk - key_clock tk) then [] else [27].
Proof.
  intros H.
  destruct (step_view st tk _ (handle_key_esc st tk H)) as (st' & Hs & Hf & Ht & Hb).
  exists st'. simpl in *. auto.
Qed.

Lemma step_bracket st tk :
  escape_buf st = [27] -> ch tk = 91 ->
  exists st',
    step st tk = Some st' /\
    has_focus st' = has_focus st /\
    escape_time st' = escape_time st /\
    escape_buf st' =
      if Qltb (1 # 2) (stale_clock tk - escape_time st) then [] else [27; 91].
Proof.
  intros Hbuf H.
  destruct (step_view st tk _ (handle_key_bracket st tk Hbuf H))
    as (st' & Hs & Hf & Ht & Hb).
  exists st'. simpl in *. auto.
Qed.

Lemma step_third st tk :
  escape_buf st = [27; 91] -> ch tk <> 27 ->
  exists st',
    step st tk = Some st' /\
    escape_buf st' = [] /\
    has_focus st' = if ch tk =? 73 then true
                    else if ch tk =? 79 then false
                    else has_focus st.
Proof.
  intros Hbuf H.
  destruct (step_view st tk _ (handle_key_third st tk Hbuf H))
    as (st' & Hs & Hf & Ht & Hb).
  exists st'. simpl in *. split; [exact Hs |]. split; [exact Hb |].
  rewrite Hf. destruct (ch tk =? 73); [reflexivity |].
  destruct (ch tk =? 79); reflexivity.
Qed.

(** With an empty buffer a byte other than ESC is an ordinary key: it never
    touches the focus flag or the buffer. *)
Lemma step_idle st tk st' :
  escape_buf st = [] -> ch tk <> 27 -> step st tk = Some st' ->
  has_focus st' = has_focus st /\ escape_buf st' = [].
Proof.
  intros Hbuf H Hs.
  destruct (handle_key st tk) as [st1 |] eqn:Hk;
    [| unfold step in Hs; rewrite Hk in Hs; discriminate].
  destruct (step_view st tk st1 Hk) as (st2 & Hs2 & Hf & Ht & Hb).
  rewrite Hs in Hs2. injection Hs2 as <-.
  assert (Hst1 : has_focus st1 = has_focus st /\ escape_buf st1 = []).
  { unfold handle_key in Hk. rewrite Hbuf in Hk.
    assert (E : (ch tk =? 27) = false) by lia. rewrite E in Hk. simpl in Hk.
    destruct ((ch tk =? 113) || (ch tk =? 81)); [discriminate |].
    destruct ((ch tk =? 114) || (ch tk =? 82)).
    - injection Hk as <-.
      destruct (do_fetch_parser st (manual_fetch tk)) as (H1 & H2 & _).
      rewrite H1, H2. auto.
    - destruct (ch tk =? KEY_RESIZE); injection Hk as <-; auto. }
  destruct Hst1 as (H1 & H2). rewrite Hf, Hb, H2, H1. auto.
Qed.

Lemma step_idle_runs st tk :
  escape_buf st = [] -> ch tk <> 27 -> ch tk <> 113 -> ch tk <> 81 ->
  exists st', step st tk = Some st'.
Proof.
  intros Hbuf H Hq HQ. unfold step, handle_key. rewrite Hbuf.
  assert (E : (ch tk =? 27) = false) by lia.
  assert (E1 : (ch tk =? 113) = false) by lia.
  assert (E2 : (ch tk =? 81) = false) by lia.
  rewrite E, E1, E2. simpl.
  destruct ((ch tk =? 114) || (ch tk =? 82)); [eexists; reflexivity |].
  destruct (ch tk =? KEY_RESIZE); eexists; reflexivity.
Qed.

(** The focus flag changes in an iteration only on the third byte of a
    buffered [ESC] [[]. *)
Lemma focus_change_needs_prefix st tk st' :
  step st tk = Some st' -> has_focus st' <> has_focus st ->
  escape_buf st = [27; 91] /\ (ch tk = 73 \/ ch tk = 79).
Proof.
  intros Hs Hne.
  destruct (handle_key st tk) as [st1 |] eqn:Hk;
    [| unfold step in Hs; rewrite Hk in Hs; discriminate].
  destruct (step_view st tk st1 Hk) as (st2 & Hs2 & Hf & _).
  rewrite Hs in Hs2. injection Hs2 as <-. rewrite Hf in Hne. clear Hs Hf.
  unfold handle_key, item in Hk.
  destruct (ch tk =? 27) eqn:E27; [injection Hk as <-; now elim Hne |].
  destruct (escape_buf st) as [| a [| b [| c l]]] eqn:Hbuf; cbn in Hk.
  - destruct ((ch tk =? 113) || (ch tk =? 81)); [discriminate |].
    destruct ((ch tk =? 114) || (ch tk =? 82)).
    + injection Hk as <-. exfalso. apply Hne. apply do_fetch_parser.
    + destruct (ch tk =? KEY_RESIZE); injection Hk as <-; now elim Hne.
  - destruct ((a =? 27) && (ch tk =? 91)); injection Hk as <-; now elim Hne.
  - destruct (a =? 27) eqn:Ea; cbn in Hk; [| injection Hk as <-; now elim Hne].
    destruct (b =? 91) eqn:Eb; cbn in Hk; [| injection Hk as <-; now elim Hne].
    apply Z.eqb_eq in Ea, Eb. subst a b.
    split; [reflexivity |].
    destruct (ch tk =? 73) eqn:E73; [left; lia |].
    destruct (ch tk =? 79) eqn:E79; [right; lia |].
    injection Hk as <-. now elim Hne.
  - 
    destruct (List.length (l ++ [ch tk])) eqn:Elen.
    { rewrite length_app in Elen. simpl in Elen. lia. }
    cbn in Hk. injection Hk as <-. now elim Hne.
Qed.

(** A buffer that is still there after an iteration was at most half a
    second old when line 433 looked at it. *)
Lemma surviving_buffer_is_fresh st tk st' :
  step st tk = Some st' -> escape_buf st' <> [] ->
  (stale_clock tk - escape_time st' <= 1 # 2)%Q.
Proof.
  intros Hs Hne.
  destruct (handle_key st tk) as [st1 |] eqn:Hk;
    [| unfold step in Hs; rewrite Hk in Hs; discriminate].
  destruct (step_view st tk st1 Hk) as (st2 & Hs2 & Hf & Ht & Hb).
  rewrite Hs in Hs2. injection Hs2 as <-.
  rewrite Ht. rewrite Hb in Hne.
  destruct (nonempty (escape_buf st1)) eqn:En; simpl in Hne.
  - destruct (Qltb (1 # 2) (stale_clock tk - escape_time st1)) eqn:Eq;
      [now elim Hne |].
    now apply Qltb_ge.
  - destruct (escape_buf st1); [now elim Hne | discriminate].
Qed.

(** C4: [ESC] [[] [I] sets the focus flag, [ESC] [[] [O] clears it, and
    [ESC] [[] followed by any other byte that is not [ESC], such as [X],
    leaves it as it was; in each case the parser is idle afterwards.  The
    bytes arrive within the window: the checks of line 433 in the first two
    iterations find at most half a second passed since the [ESC].  The
    starting state is arbitrary, idle or not. *)
Theorem focus_sequences_recognised (st : loop_state) (tk1 tk2 tk3 : tick) :
  ch tk1 = 27 -> ch tk2 = 91 -> ch tk3 <> 27 ->
  (stale_clock tk1 - key_clock tk1 <= 1 # 2)%Q ->
  (stale_clock tk2 - key_clock tk1 <= 1 # 2)%Q ->
  exists st',
    run st [tk1; tk2; tk3] = Some st' /\
    parser_state_of st' = Idle /\
    (ch tk3 = 73 -> has_focus st' = true) /\
    (ch tk3 = 79 -> has_focus st' = false) /\
    (ch tk3 <> 73 -> ch tk3 <> 79 -> has_focus st' = has_focus st).
Proof.
  intros H1 H2 H3 Hw1 Hw2.
  destruct (step_esc st tk1 H1) as (st1 & Hs1 & Hf1 & Ht1 & Hb1).
  apply Qltb_ge in Hw1. rewrite Hw1 in Hb1.
  destruct (step_bracket st1 tk2 Hb1 H2) as (st2 & Hs2 & Hf2 & Ht2 & Hb2).
  rewrite Ht1 in Hb2. apply Qltb_ge in Hw2. rewrite Hw2 in Hb2.
  destruct (step_third st2 tk3 Hb2 H3) as (st3 & Hs3 & Hb3 & Hf3).
  exists st3. simpl. rewrite Hs1, Hs2, Hs3.
  split; [reflexivity |].
  split; [unfold parser_state_of; now rewrite Hb3 |].
  rewrite Hf3, Hf2, Hf1.
  split; [intros ->; reflexivity |].
  split; [intros ->; reflexivity |].
  intros N73 N79.
  assert (E1 : (ch tk3 =? 73) = false) by lia.
  assert (E2 : (ch tk3 =? 79) = false) by lia.
  rewrite E1, E2. reflexivity.
Qed.

Lemma focus_sequences_recognised_witness :
  let st := mkLoop false [] (Some 70%Q) 70 None [] 0 in
  let tk1 := key_at 27 80 in
  let tk2 := key_at 91 (801 # 10) in
  let tk3 := key_at 73 (802 # 10) in
  ch tk1 = 27 /\ ch tk2 = 91 /\ ch tk3 <> 27 /\
  (stale_clock tk1 - key_clock tk1 <= 1 # 2)%Q /\
  (stale_clock tk2 - key_clock tk1 <= 1 # 2)%Q /\
  exists st',
    run st [tk1; tk2; tk3] = Some st' /\
    parser_state_of st' = Idle /\
    (ch tk3 = 73 -> has_focus st' = true) /\
    (ch tk3 = 79 -> has_focus st' = false) /\
    (ch tk3 <> 73 -> ch tk3 <> 79 -> has_focus st' = has_focus st).
Proof.
  intros st tk1 tk2 tk3.
  assert (H1 : ch tk1 = 27) by reflexivity.
  assert (H2 : ch tk2 = 91) by reflexivity.
  assert (H3 : ch tk3 <> 27) by discriminate.
  assert (Hw1 : (stale_clock tk1 - key_clock tk1 <= 1 # 2)%Q)
    by (unfold Qle; simpl; lia).
  assert (Hw2 : (stale_clock tk2 - key_clock tk1 <= 1 # 2)%Q)
    by (unfold Qle; simpl; lia).
  repeat (split; [assumption |]).
  exact (focus_sequences_recognised st tk1 tk2 tk3 H1 H2 H3 Hw1 Hw2).
Defined.

(** The three traces of the claim, run from the state after start-up. *)
Example focus_in_trace :
  option_map has_focus (run started [key_at 27 1; key_at 91 1; key_at 73 1]) = Some true.
Proof. reflexivity. Qed.

Example focus_out_trace :
  option_map has_focus (run started [key_at 27 1; key_at 91 1; key_at 79 1]) = Some false.
Proof. reflexivity. Qed.

Example focus_unknown_trace :
  option_map (fun s => (has_focus s, parser_state_of s))
             (run started [key_at 27 1; key_at 91 1; key_at 79 1;
                           key_at 27 2; key_at 91 2; key_at 88 2])
  = Some (false, Idle).
Proof. reflexivity. Qed.

(** C2, as the source has it: line 409 tests for [ESC] before it looks at
    the buffer, so an [ESC] that follows [ESC] [[] is not dropped.  It
    starts a new sequence: the buffer becomes [[27]] with a new time stamp
    and the parser is in SawEsc.  Feeding 27, 91, 27, 91, 73 within the
    window therefore sets the focus flag. *)
Theorem esc_after_bracket_restarts (st : loop_state) (tk3 tk4 tk5 : tick) :
  parser_state_of st = SawEscBracket ->
  ch tk3 = 27 -> ch tk4 = 91 -> ch tk5 = 73 ->
  (stale_clock tk3 - key_clock tk3 <= 1 # 2)%Q ->
  (stale_clock tk4 - key_clock tk3 <= 1 # 2)%Q ->
  exists st3 st5,
    step st tk3 = Some st3 /\
    parser_state_of st3 = SawEsc /\
    escape_time st3 = key_clock tk3 /\
    has_focus st3 = has_focus st /\
    run st3 [tk4; tk5] = Some st5 /\
    has_focus st5 = true /\
    parser_state_of st5 = Idle.
Proof.
  intros _ H3 H4 H5 Hw3 Hw4.
  destruct (step_esc st tk3 H3) as (st3 & Hs3 & Hf3 & Ht3 & Hb3).
  apply Qltb_ge in Hw3. rewrite Hw3 in Hb3.
  destruct (step_bracket st3 tk4 Hb3 H4) as (st4 & Hs4 & Hf4 & Ht4 & Hb4).
  rewrite Ht3 in Hb4. apply Qltb_ge in Hw4. rewrite Hw4 in Hb4.
  assert (N5 : ch tk5 <> 27) by lia.
  destruct (step_third st4 tk5 Hb4 N5) as (st5 & Hs5 & Hb5 & Hf5).
  exists st3, st5. simpl. rewrite Hs4, Hs5.
  split; [exact Hs3 |].
  split; [unfold parser_state_of; now rewrite Hb3 |].
  split; [exact Ht3 |].
  split; [exact Hf3 |].
  split; [reflexivity |].
  split; [rewrite Hf5, H5; reflexivity |].
  unfold parser_state_of. now rewrite Hb5.
Qed.

Lemma esc_after_bracket_restarts_witness :
  let st := mkLoop false [] (Some 70%Q) 70 None [27; 91] 80 in
  let tk3 := key_at 27 (801 # 10) in
  let tk4 := key_at 91 (802 # 10) in
  let tk5 := key_at 73 (803 # 10) in
  parser_state_of st = SawEscBracket /\
  ch tk3 = 27 /\ ch tk4 = 91 /\ ch tk5 = 73 /\
  (stale_clock tk3 - key_clock tk3 <= 1 # 2)%Q /\
  (stale_clock tk4 - key_clock tk3 <= 1 # 2)%Q /\
  exists st3 st5,
    step st tk3 = Some st3 /\
    parser_state_of st3 = SawEsc /\
    escape_time st3 = key_clock tk3 /\
    has_focus st3 = has_focus st /\
    run st3 [tk4; tk5] = Some st5 /\
    has_focus st5 = true /\
    parser_state_of st5 = Idle.
Proof.
  intros st tk3 tk4 tk5.
  assert (H0 : parser_state_of st = SawEscBracket) by reflexivity.
  assert (H3 : ch tk3 = 27) by reflexivity.
  assert (H4 : ch tk4 = 91) by reflexivity.
  assert (H5 : ch tk5 = 73) by reflexivity.
  assert (Hw3 : (stale_clock tk3 - key_clock tk3 <= 1 # 2)%Q)
    by (unfold Qle; simpl; lia).
  assert (Hw4 : (stale_clock tk4 - key_clock tk3 <= 1 # 2)%Q)
    by (unfold Qle; simpl; lia).
  repeat (split; [assumption |]).
  exact (esc_after_bracket_restarts st tk3 tk4 tk5 H0 H3 H4 H5 Hw3 Hw4).
Defined.

(** C2, as the claim has it, fails.  After start-up and a focus-out the
    flag is off; of the bytes 27, 91, 27, 91, 73 the first two bring the
    parser to SawEscBracket, the third leaves it in SawEsc, not idle, and
    the five together turn the flag on. *)
Lemma esc_after_bracket_not_dropped :
  exists unfocused st2 st3 st5,
    run started [key_at 27 1; key_at 91 1; key_at 79 1] = Some unfocused /\
    has_focus unfocused = false /\
    run unfocused [key_at 27 2; key_at 91 2] = Some st2 /\
    parser_state_of st2 = SawEscBracket /\
    step st2 (key_at 27 2) = Some st3 /\
    parser_state_of st3 = SawEsc /\
    run unfocused [key_at 27 2; key_at 91 2; key_at 27 2; key_at 91 2; key_at 73 2]
    = Some st5 /\
    has_focus st5 = true /\
    has_focus st5 <> has_focus unfocused.
Proof.
  do 4 eexists.
  split; [vm_compute; reflexivity |].
  split; [reflexivity |].
  split; [vm_compute; reflexivity |].
  split; [reflexivity |].
  split; [vm_compute; reflexivity |].
  split; [reflexivity |].
  split; [vm_compute; reflexivity |].
  split; [reflexivity |].
  discriminate.
Qed.

(** C3, as the source has it: the guard of line 433 runs at the end of each
    iteration and looks at a buffer that is still there.  When it runs after
    the [[] of a sequence and finds more than half a second passed since the
    [ESC], the buffer is dropped and the parser is idle, so an [I] or [O]
    that follows does not touch the focus flag.  This is the trace "[27],
    a wait of more than 0.5 s, then [91, 73]". *)
Theorem stale_prefix_discarded (st : loop_state) (tk1 tk2 tk3 : tick) :
  ch tk1 = 27 -> ch tk2 = 91 -> ch tk3 = 73 \/ ch tk3 = 79 ->
  (1 # 2 < stale_clock tk2 - key_clock tk1)%Q ->
  exists st1 st2 st3,
    step st tk1 = Some st1 /\
    step st1 tk2 = Some st2 /\
    step st2 tk3 = Some st3 /\
    parser_state_of st2 = Idle /\
    has_focus st3 = has_focus st /\
    parser_state_of st3 = Idle.
Proof.
  intros H1 H2 H3 Hlate.
  destruct (step_esc st tk1 H1) as (st1 & Hs1 & Hf1 & Ht1 & Hb1).
  assert (Hst2 : exists st2, step st1 tk2 = Some st2 /\
                             has_focus st2 = has_focus st1 /\ escape_buf st2 = []).
  { destruct (Qltb (1 # 2) (stale_clock tk1 - key_clock tk1)).
    - destruct (step_idle_runs st1 tk2 Hb1) as (st2 & Hs2); try lia.
      exists st2. split; [exact Hs2 |]. apply (step_idle st1 tk2); auto; lia.
    - destruct (step_bracket st1 tk2 Hb1 H2) as (st2 & Hs2 & Hf2 & _ & Hb2).
      rewrite Ht1 in Hb2. apply Qltb_lt in Hlate. rewrite Hlate in Hb2.
      exists st2. auto. }
  destruct Hst2 as (st2 & Hs2 & Hf2 & Hb2).
  destruct (step_idle_runs st2 tk3 Hb2) as (st3 & Hs3); try lia.
  destruct (step_idle st2 tk3 st3 Hb2) as (Hf3 & Hb3); [lia | exact Hs3 |].
  exists st1, st2, st3.
  repeat split; try assumption.
  - unfold parser_state_of. now rewrite Hb2.
  - now rewrite Hf3, Hf2, Hf1.
  - unfold parser_state_of. now rewrite Hb3.
Qed.

Lemma stale_prefix_discarded_witness :
  let tk1 := key_at 27 1 in
  let tk2 := key_at 91 (17 # 10) in
  let tk3 := key_at 79 (18 # 10) in
  ch tk1 = 27 /\ ch tk2 = 91 /\ (ch tk3 = 73 \/ ch tk3 = 79) /\
  (1 # 2 < stale_clock tk2 - key_clock tk1)%Q /\
  exists st1 st2 st3,
    step started tk1 = Some st1 /\
    step st1 tk2 = Some st2 /\
    step st2 tk3 = Some st3 /\
    parser_state_of st2 = Idle /\
    has_focus st3 = has_focus started /\
    parser_state_of st3 = Idle.
Proof.
  intros tk1 tk2 tk3.
  assert (H1 : ch tk1 = 27) by reflexivity.
  assert (H2 : ch tk2 = 91) by reflexivity.
  assert (H3 : ch tk3 = 73 \/ ch tk3 = 79) by (right; reflexivity).
  assert (Hlate : (1 # 2 < stale_clock tk2 - key_clock tk1)%Q)
    by (unfold Qlt; simpl; lia).
  repeat (split; [assumption |]).
  exact (stale_prefix_discarded started tk1 tk2 tk3 H1 H2 H3 Hlate).
Defined.

(** What the guard does ensure in general: the focus flag changes in an
    iteration only if the guard of the iteration before found the buffered
    prefix at most half a second old. *)
Lemma focus_change_needs_fresh_prefix st0 tk0 st tk st' :
  step st0 tk0 = Some st -> step st tk = Some st' ->
  has_focus st' <> has_focus st ->
  (stale_clock tk0 - escape_time st <= 1 # 2)%Q /\
  parser_state_of st = SawEscBracket /\
  (ch tk = 73 \/ ch tk = 79).
Proof.
  intros Hs0 Hs Hne.
  destruct (focus_change_needs_prefix st tk st' Hs Hne) as (Hb & Hc).
  split; [| split; [unfold parser_state_of; now rewrite Hb | exact Hc]].
  apply (surviving_buffer_is_fresh st0 tk0 st Hs0). rewrite Hb. discriminate.
Qed.

(** C3, as the claim has it, fails: the guard is not asked when the third
    byte arrives.  [ESC] is read at 29.9 and [[] at 30.2; the scheduler then
    fetches until 32.0; [O] is read after that, more than two seconds after
    the [ESC], and clears the focus flag. *)
Lemma late_completion_changes_focus :
  exists st1 st2 st3,
    step started (key_at 27 (299 # 10)) = Some st1 /\
    escape_time st1 = (299 # 10)%Q /\
    step st1 (key_then_fetch 91 (302 # 10) 32) = Some st2 /\
    last_fetch_time st2 = Some 32%Q /\
    (1 # 2 < 32 - escape_time st1)%Q /\
    step st2 (key_at 79 (321 # 10)) = Some st3 /\
    (1 # 2 < stale_clock (key_at 79 (321 # 10)) - escape_time st1)%Q /\
    has_focus started = true /\
    has_focus st3 = false.
Proof.
  do 3 eexists.
  split; [vm_compute; reflexivity |].
  split; [reflexivity |].
  split; [vm_compute; reflexivity |].
  split; [reflexivity |].
  split; [unfold Qlt; simpl; lia |].
  split; [vm_compute; reflexivity |].
  split; [unfold Qlt; simpl; lia |].
  split; reflexivity.
Qed.

(** ** The loop *)

Lemma do_fetch_settled st io : fetch_settled (do_fetch st io).
Proof.
  unfold fetch_settled, do_fetch.
  destruct (token_result io) as [token err1], (usage_result io) as [data err2].
  destruct (str_truthy err1) eqn:E1; [right; exact E1 |].
  destruct (str_truthy err2) eqn:E2; [right; exact E2 |].
  left. discriminate.
Qed.

Lemma handle_key_settled st tk st1 :
  fetch_settled st -> handle_key st tk = Some st1 -> fetch_settled st1.
Proof.
  intros Hinv. unfold handle_key.
  destruct (ch tk =? 27); [intros [= <-]; exact Hinv |].
  destruct (nonempty (escape_buf st)).
  - destruct (_ && _ && (ch tk =? 91)); [intros [= <-]; exact Hinv |].
    destruct (_ && _ && _); [| intros [= <-]; exact Hinv].
    destruct (ch tk =? 73); [intros [= <-]; exact Hinv |].
    destruct (ch tk =? 79); intros [= <-]; exact Hinv.
  - destruct ((ch tk =? 113) || (ch tk =? 81)); [discriminate |].
    destruct ((ch tk =? 114) || (ch tk =? 82));
      [intros [= <-]; apply do_fetch_settled |].
    destruct (ch tk =? KEY_RESIZE); intros [= <-]; exact Hinv.
Qed.

Lemma clear_stale_settled st tk : fetch_settled st -> fetch_settled (clear_stale st tk).
Proof.
  unfold clear_stale.
  destruct (nonempty (escape_buf st) && Qltb (1 # 2) (stale_clock tk - escape_time st));
    auto.
Qed.

Lemma refresh_check_settled st tk :
  fetch_settled st -> fetch_settled (refresh_check st tk).
Proof.
  intros Hinv. unfold refresh_check.
  destruct (last_fetch_time st).
  - destruct (Qle_bool _ _); [apply do_fetch_settled | exact Hinv].
  - destruct (str_truthy (error_msg st) && Qle_bool _ _);
      [apply do_fetch_settled | exact Hinv].
Qed.

Lemma step_settled st tk st' :
  fetch_settled st -> step st tk = Some st' -> fetch_settled st'.
Proof.
  intros Hinv. unfold step.
  destruct (handle_key st tk) as [st1 |] eqn:Hk; [| discriminate].
  intros [= <-].
  apply refresh_check_settled, clear_stale_settled.
  exact (handle_key_settled st tk st1 Hinv Hk).
Qed.

(** From some time on the scheduler of a settled state is due. *)
Lemma settled_eventually_due st :
  fetch_settled st ->
  exists deadline, forall now, (deadline <= now)%Q -> refresh_due st now.
Proof.
  intros Hinv. unfold refresh_due.
  destruct (last_fetch_time st) as [t |] eqn:Ht.
  - exists (t + 600)%Q. intros now Hnow. left. exists t.
    split; [reflexivity |].
    destruct (has_focus st); [left | right]; split; try reflexivity; lra.
  - destruct Hinv as [Hinv | Hinv]; [now elim Hinv |].
    exists (last_fetch_attempt st + 10)%Q. intros now Hnow. right.
    split; [reflexivity |]. split; [exact Hinv | lra].
Qed.

(** C10: in every state the loop can reach after the initial fetch, a
    success is on record or an error is set; hence one of the two conditions
    of the scheduler holds from some time on.  The invariant holds after
    every [do_fetch] ([do_fetch_settled]) and every iteration keeps it
    ([step_settled]). *)
Theorem reachable_settled (st : loop_state) :
  reachable st ->
  (last_fetch_time st <> None \/ str_truthy (error_msg st) = true) /\
  exists deadline, forall now, (deadline <= now)%Q -> refresh_due st now.
Proof.
  intros Hr.
  assert (Hinv : fetch_settled st).
  { induction Hr as [io | st tk st' _ IH Hs].
    - apply do_fetch_settled.
    - exact (step_settled st tk st' IH Hs). }
  split; [exact Hinv | now apply settled_eventually_due].
Qed.

Lemma reachable_settled_witness :
  let st := do_fetch init_state (fetch_network_error 5 "Network error: timed out") in
  reachable st /\
  (last_fetch_time st <> None \/ str_truthy (error_msg st) = true) /\
  exists deadline, forall now, (deadline <= now)%Q -> refresh_due st now.
Proof.
  intros st.
  assert (Hr : reachable st) by apply reach_initial_fetch.
  split; [exact Hr |].
  exact (reachable_settled st Hr).
Defined.

(** * Further properties *)

(** ** Category normalizer: which entries, in which order *)

Lemma make_category_some k e fn fw :
  (exists c, make_category k e fn fw = Some c) <-> renderable_entry (PDict e) = true.
Proof.
  unfold make_category, renderable_entry.
  destruct (is_none (dict_get e "utilization") && is_none (dict_get e "resets_at"));
    simpl; split.
  - intros (c & H). discriminate.
  - discriminate.
  - reflexivity.
  - intros _. eexists. reflexivity.
Qed.

Lemma known_loop_keys data keys :
  forall cats seen,
    map key (fst (known_loop data keys cats seen))
    = (map key cats ++ filter (renderable data) keys)%list.
Proof.
  induction keys as [| k keys IH]; intros cats seen; simpl.
  - now rewrite app_nil_r.
  - unfold renderable at 1.
    destruct (dict_lookup data k) as [entry |] eqn:Hl; [| apply IH].
    destruct entry; simpl; try apply IH.
    destruct (make_category k d k _) as [c |] eqn:Hm.
    + assert (Hr : renderable_entry (PDict d) = true)
        by (apply (make_category_some k d k 18000); eauto).
      simpl in Hr. rewrite Hr. rewrite IH, map_app. simpl.
      apply make_category_spec in Hm. destruct Hm as (-> & _).
      now rewrite <- app_assoc.
    + assert (Hr : renderable_entry (PDict d) = false).
      { destruct (renderable_entry (PDict d)) eqn:E; [| reflexivity].
        apply (make_category_some k d k 18000) in E. destruct E as (c & E).
        congruence. }
      simpl in Hr. rewrite Hr. apply IH.
Qed.

Lemma known_loop_seen data keys k :
  forall cats seen,
    str_in k (snd (known_loop data keys cats seen))
    = str_in k seen
      || (str_in k keys && match dict_lookup data k with Some _ => true | None => false end).
Proof.
  induction keys as [| k' keys IH]; intros cats seen.
  - simpl. now rewrite orb_false_r.
  - assert (Hstep : forall cats', dict_lookup data k' <> None ->
                 str_in k (snd (known_loop data keys cats' (k' :: seen)))
                 = str_in k seen
                   || (str_in k (k' :: keys)
                       && match dict_lookup data k with Some _ => true | None => false end)).
    { intros cats' Hsome. rewrite IH. unfold str_in. simpl.
      destruct (String.eqb k k') eqn:E; simpl; [| reflexivity].
      apply String.eqb_eq in E. subst k'.
      destruct (dict_lookup data k); [| now elim Hsome].
      now rewrite !orb_true_r. }
    simpl known_loop.
    destruct (dict_lookup data k') as [entry |] eqn:Hl.
    + assert (Hne : Some entry <> None) by discriminate.
      destruct entry; try (apply Hstep; exact Hne).
      destruct (make_category k' d k' _); apply Hstep; exact Hne.
    + rewrite IH. unfold str_in. simpl.
      destruct (String.eqb k k') eqn:E; simpl; [| reflexivity].
      apply String.eqb_eq in E. subst k'. rewrite Hl.
      now rewrite !andb_false_r.
Qed.

Lemma leftover_loop_keys seen items :
  forall cats,
    map key (leftover_loop items seen cats)
    = (map key cats
       ++ map fst (filter (fun kv => negb (str_in (fst kv) seen)
                                     && renderable_entry (snd kv)) items))%list.
Proof.
  induction items as [| [k entry] items IH]; intros cats; simpl.
  - now rewrite app_nil_r.
  - destruct entry; simpl; rewrite ?andb_false_r; try apply IH.
    destruct (str_in k seen); simpl; [apply IH |].
    destruct (make_category k d _ _) as [c |] eqn:Hm.
    + assert (Hr : renderable_entry (PDict d) = true)
        by (eapply make_category_some; eauto).
      simpl in Hr. rewrite Hr. rewrite IH, map_app. simpl.
      apply make_category_spec in Hm. destruct Hm as (-> & _).
      now rewrite <- app_assoc.
    + assert (Hr : renderable_entry (PDict d) = false).
      { destruct (renderable_entry (PDict d)) eqn:E; [| reflexivity].
        eapply make_category_some in E. destruct E as (c & E).
        rewrite Hm in E. discriminate. }
      simpl in Hr. rewrite Hr. apply IH.
Qed.

Lemma In_dict_lookup (d : pydict) k v :
  In (k, v) d -> exists v', dict_lookup d k = Some v'.
Proof.
  induction d as [| [k' v'] d IH]; simpl; [contradiction |].
  intros [[= -> ->] | H].
  - rewrite String.eqb_refl. eauto.
  - destruct (String.eqb k' k); eauto.
Qed.

Lemma NoDup_dict_lookup (d : pydict) k v :
  NoDup (map fst d) -> In (k, v) d -> dict_lookup d k = Some v.
Proof.
  induction d as [| [k' v'] d IH]; simpl; [contradiction |].
  intros Hnd Hin. inversion Hnd as [| ? ? Hnotin Hnd']. subst.
  destruct Hin as [[= -> ->] | Hin].
  - now rewrite String.eqb_refl.
  - destruct (String.eqb k' k) eqn:E; [| now apply IH].
    apply String.eqb_eq in E. subst k'. exfalso. apply Hnotin.
    apply in_map_iff. exists (k, v). auto.
Qed.

Lemma str_in_In k l : str_in k l = true <-> In k l.
Proof.
  unfold str_in. rewrite existsb_exists. split.
  - intros (x & Hx & E). apply String.eqb_eq in E. now subst.
  - intros H. exists k. split; [exact H | apply String.eqb_refl].
Qed.

Lemma parse_usage_keys (data : pydict) :
  map key (parse_usage data)
  = (filter (renderable data) CATEGORY_ORDER
     ++ map fst (filter leftover_item data))%list.
Proof.
  unfold parse_usage.
  pose proof (known_loop_keys data CATEGORY_ORDER [] []) as Hk.
  pose proof (fun k => known_loop_seen data CATEGORY_ORDER k [] []) as Hs.
  destruct (known_loop data CATEGORY_ORDER [] []) as [cats seen].
  simpl fst in Hk. simpl snd in Hs.
  rewrite leftover_loop_keys, Hk. simpl map at 1. simpl app at 1.
  f_equal. f_equal. apply filter_ext_in.
  intros [k v] Hin. unfold leftover_item. simpl fst. simpl snd.
  rewrite Hs. destruct (In_dict_lookup data k v Hin) as (v' & ->).
  simpl. now rewrite andb_true_r.
Qed.

(** X1: the list of records is in two parts.  The keys of the first part
    are the keys of [CATEGORY_ORDER] that are renderable in the payload, in
    that fixed order; the keys of the second are the payload's other
    renderable keys, in payload order. *)
Theorem parse_usage_order (data : pydict) :
  exists known leftover,
    parse_usage data = (known ++ leftover)%list /\
    map key known = filter (renderable data) CATEGORY_ORDER /\
    map key leftover = map fst (filter leftover_item data).
Proof.
  pose proof (parse_usage_keys data) as H.
  apply map_eq_app in H. destruct H as (known & leftover & Hsplit & Hk & Hl).
  exists known, leftover. auto.
Qed.

Lemma NoDup_map_fst_filter {A B : Type} (f : A * B -> bool) (l : list (A * B)) :
  NoDup (map fst l) -> NoDup (map fst (filter f l)).
Proof.
  induction l as [| a l IH]; simpl; intros H; [constructor |].
  inversion H as [| ? ? Hnotin Hnd]. subst.
  destruct (f a); simpl; [| now apply IH].
  constructor; [| now apply IH].
  intros Hin. apply Hnotin. apply in_map_iff in Hin.
  destruct Hin as (x & Hx & Hf). apply filter_In in Hf.
  apply in_map_iff. exists x. tauto.
Qed.

Lemma CATEGORY_ORDER_NoDup : NoDup CATEGORY_ORDER.
Proof.
  unfold CATEGORY_ORDER.
  repeat (constructor; [simpl; intuition discriminate |]).
  constructor.
Qed.

(** X2: when the payload's keys are distinct, as those of a Python dict
    are, so are the keys of the records: no category is listed twice. *)
Theorem parse_usage_keys_distinct (data : pydict) :
  NoDup (map fst data) -> NoDup (map key (parse_usage data)).
Proof.
  intros Hnd. rewrite parse_usage_keys.
  apply NoDup_app.
  - apply NoDup_filter, CATEGORY_ORDER_NoDup.
  - now apply NoDup_map_fst_filter.
  - intros k Hk Hk'. apply filter_In in Hk. destruct Hk as (Hk & _).
    apply in_map_iff in Hk'. destruct Hk' as ([k' v] & <- & Hf).
    apply filter_In in Hf. destruct Hf as (_ & Hf).
    apply str_in_In in Hk. unfold leftover_item in Hf.
    rewrite Hk in Hf. discriminate.
Qed.

Lemma parse_usage_keys_distinct_witness :
  NoDup (map fst mixed_payload) /\ NoDup (map key (parse_usage mixed_payload)).
Proof.
  assert (H : NoDup (map fst mixed_payload)).
  { simpl.
    repeat (constructor; [simpl; intuition discriminate |]).
    constructor. }
  split; [exact H | exact (parse_usage_keys_distinct mixed_payload H)].
Defined.

(** X3: with distinct payload keys, a key has a record exactly when its
    value in the payload is an object with a utilization or a reset time
    that is not [null]. *)
Theorem parse_usage_membership (data : pydict) (k : string) :
  NoDup (map fst data) ->
  (In k (map key (parse_usage data)) <-> renderable data k = true).
Proof.
  intros Hnd. rewrite parse_usage_keys, in_app_iff, filter_In.
  split.
  - intros [(_ & H) | H]; [exact H |].
    apply in_map_iff in H. destruct H as ([k' v] & Hk & Hf). simpl in Hk. subst k'.
    apply filter_In in Hf. destruct Hf as (Hin & Hf).
    unfold renderable. rewrite (NoDup_dict_lookup data k v Hnd Hin).
    unfold leftover_item in Hf. simpl in Hf.
    now apply andb_true_iff in Hf.
  - intros Hr. destruct (str_in k CATEGORY_ORDER) eqn:E.
    + left. split; [now apply str_in_In | exact Hr].
    + right. unfold renderable in Hr.
      destruct (dict_lookup data k) as [v |] eqn:Hl; [| discriminate].
      apply in_map_iff. exists (k, v). split; [reflexivity |].
      apply filter_In. split; [now apply dict_lookup_In |].
      unfold leftover_item. simpl fst. simpl snd. now rewrite E, Hr.
Qed.

Lemma parse_usage_membership_witness :
  NoDup (map fst mixed_payload) /\
  (In "zeta_pool" (map key (parse_usage mixed_payload))
   <-> renderable mixed_payload "zeta_pool" = true) /\
  (In "seven_day_opus" (map key (parse_usage mixed_payload))
   <-> renderable mixed_payload "seven_day_opus" = true) /\
  renderable mixed_payload "zeta_pool" = true /\
  renderable mixed_payload "seven_day_opus" = false.
Proof.
  assert (H : NoDup (map fst mixed_payload)).
  { simpl.
    repeat (constructor; [simpl; intuition discriminate |]).
    constructor. }
  split; [exact H |].
  split; [exact (parse_usage_membership mixed_payload "zeta_pool" H) |].
  split; [exact (parse_usage_membership mixed_payload "seven_day_opus" H) |].
  split; reflexivity.
Defined.

Lemma make_category_window k e fn fw c :
  make_category k e fn fw = Some c ->
  key c = k /\ window_seconds c = table_get WINDOW_DURATIONS k fw.
Proof.
  unfold make_category.
  destruct (is_none (dict_get e "utilization") && is_none (dict_get e "resets_at"));
    [discriminate |].
  intros [= <-]. simpl. auto.
Qed.

Lemma table_get_window_known k fb :
  In k CATEGORY_ORDER -> table_get WINDOW_DURATIONS k fb = window_of k.
Proof.
  unfold CATEGORY_ORDER. simpl.
  intros [<- | [<- | [<- | [<- | []]]]]; reflexivity.
Qed.

Lemma table_get_window_default k :
  table_get WINDOW_DURATIONS k (7 * 24 * 3600) = window_of k.
Proof.
  unfold table_get, window_of, WINDOW_DURATIONS. cbn [find fst snd].
  rewrite (String.eqb_sym "five_hour" k).
  destruct (String.eqb k "five_hour"); [reflexivity |].
  destruct (String.eqb "seven_day" k); [reflexivity |].
  destruct (String.eqb "seven_day_opus" k); [reflexivity |].
  destruct (String.eqb "seven_day_sonnet" k); reflexivity.
Qed.

Lemma known_loop_windows data keys :
  forall cats seen,
    incl keys CATEGORY_ORDER ->
    Forall (fun c => window_seconds c = window_of (key c)) cats ->
    Forall (fun c => window_seconds c = window_of (key c))
           (fst (known_loop data keys cats seen)).
Proof.
  induction keys as [| k keys IH]; intros cats seen Hi Hc; simpl; [exact Hc |].
  assert (Hi' : incl keys CATEGORY_ORDER) by (intros x Hx; apply Hi; now right).
  destruct (dict_lookup data k) as [entry |]; [| now apply IH].
  destruct entry; try now apply IH.
  destruct (make_category k d k _) as [c |] eqn:Hm; [| now apply IH].
  apply IH; [exact Hi' |]. apply Forall_app. split; [exact Hc |].
  constructor; [| constructor].
  apply make_category_window in Hm. destruct Hm as (Hk & Hw).
  rewrite Hw, Hk. apply table_get_window_known. apply Hi. now left.
Qed.

Lemma leftover_loop_windows seen items :
  forall cats,
    Forall (fun c => window_seconds c = window_of (key c)) cats ->
    Forall (fun c => window_seconds c = window_of (key c))
           (leftover_loop items seen cats).
Proof.
  induction items as [| [k entry] items IH]; intros cats Hc; simpl; [exact Hc |].
  destruct entry; try now apply IH.
  destruct (str_in k seen); [now apply IH |].
  destruct (make_category k d _ _) as [c |] eqn:Hm; [| now apply IH].
  apply IH. apply Forall_app. split; [exact Hc |].
  constructor; [| constructor].
  apply make_category_window in Hm. destruct Hm as (Hk & Hw).
  rewrite Hw, Hk. apply table_get_window_default.
Qed.

(** X4: every record has a positive window: 18000 seconds for the key
    [five_hour] and 604800 seconds for every other key, known or not.  The
    guard of [calc_glide_slope] against a window of zero or less is never
    reached on a record of [parse_usage]. *)
Theorem parse_usage_windows (data : pydict) (c : category) :
  In c (parse_usage data) ->
  window_seconds c = (if String.eqb (key c) "five_hour" then 18000 else 604800) /\
  0 < window_seconds c.
Proof.
  intros Hin.
  assert (HF : Forall (fun c => window_seconds c = window_of (key c)) (parse_usage data)).
  { unfold parse_usage.
    pose proof (known_loop_windows data CATEGORY_ORDER [] [] (incl_refl _) (Forall_nil _))
      as Hk.
    destruct (known_loop data CATEGORY_ORDER [] []) as [cats seen]. simpl in Hk.
    now apply leftover_loop_windows. }
  rewrite Forall_forall in HF. specialize (HF c Hin).
  split; [exact HF |]. rewrite HF. unfold window_of.
  destruct (String.eqb (key c) "five_hour"); lia.
Qed.

Lemma parse_usage_windows_witness :
  let c := mkCategory "zeta_pool" "Zeta Pool" (PNum 12) PNone 604800 in
  In c (parse_usage mixed_payload) /\
  window_seconds c = (if String.eqb (key c) "five_hour" then 18000 else 604800) /\
  0 < window_seconds c.
Proof.
  intros c.
  assert (H : In c (parse_usage mixed_payload))
    by (vm_compute; do 2 right; left; reflexivity).
  split; [exact H | exact (parse_usage_windows mixed_payload c H)].
Defined.

(** ** Glide slope over time *)

Lemma py_clamp_mono (a b : Q) :
  (a <= b)%Q -> (py_max 0 (py_min 100 a) <= py_max 0 (py_min 100 b))%Q.
Proof.
  intros H. unfold py_max, py_min.
  destruct (Qltb a 100) eqn:Ea; destruct (Qltb b 100) eqn:Eb;
    try (apply Qltb_lt in Ea); try (apply Qltb_ge in Ea);
    try (apply Qltb_lt in Eb); try (apply Qltb_ge in Eb).
  - destruct (Qltb 0 a) eqn:E0a; destruct (Qltb 0 b) eqn:E0b;
      try (apply Qltb_lt in E0a); try (apply Qltb_ge in E0a);
      try (apply Qltb_lt in E0b); try (apply Qltb_ge in E0b); lra.
  - change (Qltb 0 100) with true. cbv iota.
    destruct (Qltb 0 a) eqn:E0a;
      try (apply Qltb_lt in E0a); try (apply Qltb_ge in E0a); lra.
  - lra.
  - lra.
Qed.

Lemma py_clamp_inside (a : Q) :
  (0 <= a)%Q -> (a <= 100)%Q -> (py_max 0 (py_min 100 a) == a)%Q.
Proof.
  intros H0 H1. unfold py_max, py_min.
  destruct (Qltb a 100) eqn:Ea;
    try (apply Qltb_lt in Ea); try (apply Qltb_ge in Ea).
  - destruct (Qltb 0 a) eqn:E0;
      try (apply Qltb_lt in E0); try (apply Qltb_ge in E0); lra.
  - change (Qltb 0 100) with true. cbv iota. lra.
Qed.

Lemma inject_Z_pos (w : Z) : 0 < w -> (0 < inject_Z w)%Q.
Proof. intros H. unfold Qlt. simpl. lia. Qed.

(** The share of the window that has elapsed grows with [now]. *)
Lemma elapsed_share_mono (w t now1 now2 : Q) :
  (0 < w)%Q -> (now1 <= now2)%Q ->
  ((w - (t - now1)) / w * 100 <= (w - (t - now2)) / w * 100)%Q.
Proof.
  intros Hw H.
  apply Qmult_le_compat_r; [| lra].
  apply Qle_shift_div_l; [exact Hw |].
  assert (E : ((w - (t - now1)) / w * w == w - (t - now1))%Q) by (field; lra).
  rewrite E. lra.
Qed.

Lemma elapsed_share_bounds (w a : Q) :
  (0 < w)%Q -> (0 <= a)%Q -> (a <= w)%Q ->
  (0 <= a / w * 100 /\ a / w * 100 <= 100)%Q.
Proof.
  intros Hw H0 H1.
  assert (Hl : (0 <= a / w)%Q) by (apply Qle_shift_div_l; [exact Hw | lra]).
  assert (Hu : (a / w <= 1)%Q) by (apply Qle_shift_div_r; [exact Hw | lra]).
  split; lra.
Qed.

Section GlideOverTime.

Variable fromisoformat : string -> isoparse.

(** X5: the glide slope never decreases as time passes: of two calls on the
    same reset time and window that both return, the one with the later
    clock reading returns at least as much. *)
Theorem calc_glide_slope_monotone (v : pyval) (w : Z) (now1 now2 r1 r2 : Q) :
  (now1 <= now2)%Q ->
  calc_glide_slope fromisoformat v w now1 = Returns r1 ->
  calc_glide_slope fromisoformat v w now2 = Returns r2 ->
  (r1 <= r2)%Q.
Proof.
  intros Hnow. unfold calc_glide_slope.
  destruct (negb (py_truthy v)); [intros [= <-] [= <-]; lra |].
  destruct v; try (intros [= <-] [= <-]; lra).
  destruct (fromisoformat (replace_Z s)) as [| wall | t];
    [intros [= <-] [= <-]; lra | discriminate |].
  destruct (w <=? 0) eqn:Hw; [intros [= <-] [= <-]; lra |].
  apply Z.leb_gt in Hw.
  intros [= <-] [= <-].
  apply py_clamp_mono, elapsed_share_mono; [now apply inject_Z_pos | exact Hnow].
Qed.

(** X6: for a reset time with UTC offset and a positive window, the glide
    slope is 100 once the reset time has passed, 0 until the window has
    begun, and in between the elapsed share of the window in percent,
    [(window - (resets_at - now)) / window * 100], unclamped. *)
Theorem calc_glide_slope_piecewise (s : string) (t : Q) (w : Z) (now : Q) :
  s <> "" ->
  fromisoformat (replace_Z s) = IsoAware t ->
  0 < w ->
  exists r,
    calc_glide_slope fromisoformat (PStr s) w now = Returns r /\
    ((t <= now)%Q -> r = 100%Q) /\
    ((now + inject_Z w <= t)%Q -> r = 0%Q) /\
    ((t - inject_Z w <= now)%Q -> (now <= t)%Q ->
     (r == (inject_Z w - (t - now)) / inject_Z w * 100)%Q).
Proof.
  intros Hs Hp Hw. unfold calc_glide_slope. rewrite Hp.
  assert (Ht : negb (py_truthy (PStr s)) = false).
  { simpl. rewrite negb_involutive. now apply String.eqb_neq. }
  rewrite Ht.
  assert (E : (w <=? 0) = false) by lia. rewrite E.
  pose proof (inject_Z_pos w Hw) as HwQ.
  eexists. split; [reflexivity |].
  split; [| split].
  - intros H. apply py_clamp_high.
    assert (Hb : (1 <= (inject_Z w - (t - now)) / inject_Z w)%Q)
      by (apply Qle_shift_div_l; [exact HwQ | lra]).
    lra.
  - intros H. apply py_clamp_low.
    assert (Hb : ((inject_Z w - (t - now)) / inject_Z w <= 0)%Q)
      by (apply Qle_shift_div_r; [exact HwQ | lra]).
    lra.
  - intros H1 H2. apply py_clamp_inside;
      apply (elapsed_share_bounds (inject_Z w) (inject_Z w - (t - now))); lra.
Qed.

End GlideOverTime.

Lemma calc_glide_slope_monotone_witness :
  (0 <= 4500)%Q /\
  calc_glide_slope (parse_all_aware 9000) (PStr "2025-06-01T12:00:00+00:00") 18000 0
  = Returns (900000 # 18000) /\
  calc_glide_slope (parse_all_aware 9000) (PStr "2025-06-01T12:00:00+00:00") 18000 4500
  = Returns (1350000 # 18000) /\
  (900000 # 18000 <= 1350000 # 18000)%Q.
Proof.
  assert (H0 : (0 <= 4500)%Q) by (unfold Qle; simpl; lia).
  assert (H1 : calc_glide_slope (parse_all_aware 9000)
                 (PStr "2025-06-01T12:00:00+00:00") 18000 0
               = Returns (900000 # 18000)) by reflexivity.
  assert (H2 : calc_glide_slope (parse_all_aware 9000)
                 (PStr "2025-06-01T12:00:00+00:00") 18000 4500
               = Returns (1350000 # 18000)) by reflexivity.
  repeat (split; [assumption |]).
  exact (calc_glide_slope_monotone (parse_all_aware 9000)
           (PStr "2025-06-01T12:00:00+00:00") 18000 0 4500 _ _ H0 H1 H2).
Defined.

Lemma calc_glide_slope_piecewise_witness :
  "2025-06-01T12:00:00+00:00" <> "" /\
  parse_all_aware 9000 (replace_Z "2025-06-01T12:00:00+00:00") = IsoAware 9000 /\
  0 < 18000 /\
  exists r,
    calc_glide_slope (parse_all_aware 9000) (PStr "2025-06-01T12:00:00+00:00") 18000 9500
    = Returns r /\
    ((9000 <= 9500)%Q -> r = 100%Q) /\
    ((9500 + inject_Z 18000 <= 9000)%Q -> r = 0%Q) /\
    ((9000 - inject_Z 18000 <= 9500)%Q -> (9500 <= 9000)%Q ->
     (r == (inject_Z 18000 - (9000 - 9500)) / inject_Z 18000 * 100)%Q).
Proof.
  split; [discriminate |]. split; [reflexivity |]. split; [lia |].
  apply (calc_glide_slope_piecewise (parse_all_aware 9000)
           "2025-06-01T12:00:00+00:00" 9000 18000 9500);
    [discriminate | reflexivity | lia].
Defined.

(** ** Reset-time and update-time formatters *)

Ltac inject_norm :=
  repeat (rewrite inject_Z_plus in * || rewrite inject_Z_mult in *);
  change (inject_Z 1) with 1%Q in *;
  change (inject_Z 60) with 60%Q in *;
  change (inject_Z 3600) with 3600%Q in *.

Lemma Qfloor_between (x : Q) (a b : Z) :
  (inject_Z a <= x)%Q -> (x < inject_Z b)%Q -> a <= Qfloor x < b.
Proof.
  intros Ha Hb. split.
  - rewrite <- (Qfloor_Z a). now apply Qfloor_resp_le.
  - pose proof (Qfloor_le x) as Hf.
    assert (H : (inject_Z (Qfloor x) < inject_Z b)%Q) by lra.
    now rewrite <- Zlt_Qlt in H.
Qed.

Lemma py_int_nonneg (x : Q) : (0 <= x)%Q -> py_int x = Qfloor x.
Proof.
  intros H. unfold py_int. apply Qle_bool_iff in H. now rewrite H.
Qed.

(** The whole multiples of [unit] in [x], for a positive [unit]. *)
Lemma Qfloor_div_bounds (x : Q) (unit : Z) :
  0 < unit -> (0 <= x)%Q ->
  let n := Qfloor (x / inject_Z unit) in
  0 <= n /\
  (inject_Z (n * unit) <= x)%Q /\ (x < inject_Z ((n + 1) * unit))%Q.
Proof.
  intros Hu Hx n.
  pose proof (inject_Z_pos unit Hu) as HuQ.
  pose proof (Qfloor_le (x / inject_Z unit)) as Hlo.
  pose proof (Qlt_floor (x / inject_Z unit)) as Hhi.
  fold n in Hlo, Hhi.
  assert (E : (x / inject_Z unit * inject_Z unit == x)%Q) by (field; lra).
  split; [| split].
  - assert (H0 : (inject_Z 0 <= x / inject_Z unit)%Q)
      by (apply Qle_shift_div_l; [exact HuQ | change (inject_Z 0) with 0%Q; lra]).
    rewrite <- (Qfloor_Z 0). now apply Qfloor_resp_le.
  - rewrite inject_Z_mult. rewrite <- E.
    apply Qmult_le_compat_r; lra.
  - rewrite inject_Z_mult. rewrite <- E at 1.
    apply Qmult_lt_compat_r; lra.
Qed.

Section ResetTimeFacts.

Variable fromisoformat : string -> isoparse.
Variable astimezone : Q -> local_time.


(** X8: for a reset time with UTC offset that is in the past or is now, the
    text is "Resetting now"; for one less than an hour ahead it is
    "Resets in N min" with N the whole minutes remaining, from 0 to 59. *)
Theorem format_reset_time_minutes (s : string) (t now : Q) :
  s <> "" ->
  fromisoformat (replace_Z s) = IsoAware t ->
  ((t - now <= 0)%Q ->
   format_reset_time fromisoformat astimezone (PStr s) now = Returns "Resetting now") /\
  ((0 < t - now)%Q -> (t - now < 3600)%Q ->
   exists n,
     format_reset_time fromisoformat astimezone (PStr s) now
     = Returns ("Resets in " ++ str_of_Z n ++ " min")%string /\
     0 <= n <= 59 /\
     (inject_Z (n * 60) <= t - now)%Q /\ (t - now < inject_Z ((n + 1) * 60))%Q).
Proof.
  intros Hs Hp. unfold format_reset_time. rewrite Hp.
  assert (Ht : negb (py_truthy (PStr s)) = false).
  { simpl. rewrite negb_involutive. now apply String.eqb_neq. }
  rewrite Ht. split.
  - intros H. apply Qle_bool_iff in H. now rewrite H.
  - intros H0 H1.
    assert (E0 : Qle_bool (t - now) 0 = false).
    { destruct (Qle_bool (t - now) 0) eqn:E; [| reflexivity].
      apply Qle_bool_iff in E. lra. }
    assert (E1 : Qltb (t - now) 3600 = true) by now apply Qltb_lt.
    rewrite E0, E1.
    assert (Hq : (0 <= (t - now) / 60)%Q)
      by (apply Qle_shift_div_l; lra).
    rewrite (py_int_nonneg _ Hq).
    destruct (Qfloor_div_bounds (t - now) 60) as (Hn0 & Hlo & Hhi); [lia | lra |].
    change (inject_Z 60) with 60%Q in *.
    eexists. split; [reflexivity |].
    split; [| split; assumption].
    split; [exact Hn0 |].
    assert (H : (inject_Z (Qfloor ((t - now) / 60) * 60) < inject_Z 3600)%Q)
      by (change (inject_Z 3600) with 3600%Q; change (inject_Z 86400) with 86400%Q; lra).
    rewrite <- Zlt_Qlt in H. lia.
Qed.

(** X9: for a reset time with UTC offset that is at least an hour and less
    than a day ahead, the text names the whole hours H, from 1 to 23, and
    the whole minutes M beyond them, from 0 to 59; the minutes are left out
    when M is 0.  Exactly 3600 seconds give "Resets in 1 hr". *)
Theorem format_reset_time_hours (s : string) (t now : Q) :
  s <> "" ->
  fromisoformat (replace_Z s) = IsoAware t ->
  (3600 <= t - now)%Q -> (t - now < 86400)%Q ->
  exists h m,
    1 <= h <= 23 /\ 0 <= m <= 59 /\
    (inject_Z (h * 3600 + m * 60) <= t - now)%Q /\
    (t - now < inject_Z (h * 3600 + (m + 1) * 60))%Q /\
    format_reset_time fromisoformat astimezone (PStr s) now
    = Returns (if m =? 0
               then ("Resets in " ++ str_of_Z h ++ " hr")%string
               else ("Resets in " ++ str_of_Z h ++ " hr "
                     ++ str_of_Z m ++ " min")%string).
Proof.
  intros Hs Hp H0 H1. unfold format_reset_time. rewrite Hp.
  assert (Ht : negb (py_truthy (PStr s)) = false).
  { simpl. rewrite negb_involutive. now apply String.eqb_neq. }
  rewrite Ht.
  assert (E0 : Qle_bool (t - now) 0 = false).
  { destruct (Qle_bool (t - now) 0) eqn:E; [| reflexivity].
    apply Qle_bool_iff in E. lra. }
  assert (E1 : Qltb (t - now) 3600 = false) by now apply Qltb_ge.
  assert (E2 : Qltb (t - now) (24 * 3600) = true) by (apply Qltb_lt; lra).
  rewrite E0, E1, E2.
  set (r := (t - now)%Q) in *.
  assert (Hq : (0 <= r / 3600)%Q) by (apply Qle_shift_div_l; lra).
  rewrite (py_int_nonneg _ Hq).
  destruct (Qfloor_div_bounds r 3600) as (Hh0 & Hhlo & Hhhi); [lia | lra |].
  change (inject_Z 3600) with 3600%Q in *.
  set (h := Qfloor (r / 3600)) in *.
  assert (Hh : 1 <= h <= 23).
  { split.
    - assert (H : (inject_Z 3600 < inject_Z ((h + 1) * 3600))%Q)
        by (change (inject_Z 3600) with 3600%Q; lra).
      rewrite <- Zlt_Qlt in H. lia.
    - assert (H : (inject_Z (h * 3600) < inject_Z 86400)%Q)
        by (change (inject_Z 3600) with 3600%Q; change (inject_Z 86400) with 86400%Q; lra).
      rewrite <- Zlt_Qlt in H. lia. }
  unfold py_mod. fold h.
  set (rest := (r - 3600 * inject_Z h)%Q).
  assert (Hrest : (0 <= rest)%Q /\ (rest < 3600)%Q).
  { unfold rest. rewrite inject_Z_mult in Hhlo, Hhhi. rewrite inject_Z_plus in Hhhi.
    change (inject_Z 3600) with 3600%Q in *. change (inject_Z 1) with 1%Q in *.
    split; lra. }
  destruct Hrest as (Hr0 & Hr1).
  assert (Hq' : (0 <= rest / 60)%Q) by (apply Qle_shift_div_l; lra).
  rewrite (py_int_nonneg _ Hq').
  destruct (Qfloor_div_bounds rest 60) as (Hm0 & Hmlo & Hmhi); [lia | lra |].
  change (inject_Z 60) with 60%Q in *.
  set (m := Qfloor (rest / 60)) in *.
  assert (Hm : 0 <= m <= 59).
  { split; [exact Hm0 |].
    assert (H : (inject_Z (m * 60) < inject_Z 3600)%Q)
      by (change (inject_Z 3600) with 3600%Q; change (inject_Z 86400) with 86400%Q; lra).
    rewrite <- Zlt_Qlt in H. lia. }
  exists h, m.
  split; [exact Hh |]. split; [exact Hm |].
  split; [| split].
  - unfold rest in *. inject_norm. lra.
  - unfold rest in *. inject_norm. lra.
  - destruct (m =? 0) eqn:Em.
    + assert (Eg : (m >? 0) = false) by lia. now rewrite Eg.
    + assert (Eg : (m >? 0) = true) by lia. now rewrite Eg.
Qed.


End ResetTimeFacts.

Lemma format_reset_time_minutes_witness :
  "2025-06-01T12:00:00+00:00" <> "" /\
  parse_all_aware 3599 (replace_Z "2025-06-01T12:00:00+00:00") = IsoAware 3599 /\
  (0 < 3599 - 0)%Q /\ (3599 - 0 < 3600)%Q /\
  exists n,
    format_reset_time (parse_all_aware 3599) always_tuesday
      (PStr "2025-06-01T12:00:00+00:00") 0
    = Returns ("Resets in " ++ str_of_Z n ++ " min")%string /\
    0 <= n <= 59 /\
    (inject_Z (n * 60) <= 3599 - 0)%Q /\ (3599 - 0 < inject_Z ((n + 1) * 60))%Q.
Proof.
  assert (Hs : "2025-06-01T12:00:00+00:00" <> "") by discriminate.
  assert (H0 : (0 < 3599 - 0)%Q) by (unfold Qlt; simpl; lia).
  assert (H1 : (3599 - 0 < 3600)%Q) by (unfold Qlt; simpl; lia).
  split; [exact Hs |]. split; [reflexivity |].
  split; [exact H0 |]. split; [exact H1 |].
  exact (proj2 (format_reset_time_minutes (parse_all_aware 3599) always_tuesday
                  "2025-06-01T12:00:00+00:00" 3599 0 Hs eq_refl) H0 H1).
Defined.

Lemma format_reset_time_hours_witness :
  "2025-06-01T12:00:00+00:00" <> "" /\
  parse_all_aware 3600 (replace_Z "2025-06-01T12:00:00+00:00") = IsoAware 3600 /\
  (3600 <= 3600 - 0)%Q /\ (3600 - 0 < 86400)%Q /\
  format_reset_time (parse_all_aware 3600) always_tuesday
    (PStr "2025-06-01T12:00:00+00:00") 0
  = Returns "Resets in 1 hr" /\
  exists h m,
    1 <= h <= 23 /\ 0 <= m <= 59 /\
    (inject_Z (h * 3600 + m * 60) <= 3600 - 0)%Q /\
    (3600 - 0 < inject_Z (h * 3600 + (m + 1) * 60))%Q /\
    format_reset_time (parse_all_aware 3600) always_tuesday
      (PStr "2025-06-01T12:00:00+00:00") 0
    = Returns (if m =? 0
               then ("Resets in " ++ str_of_Z h ++ " hr")%string
               else ("Resets in " ++ str_of_Z h ++ " hr "
                     ++ str_of_Z m ++ " min")%string).
Proof.
  assert (Hs : "2025-06-01T12:00:00+00:00" <> "") by discriminate.
  assert (H0 : (3600 <= 3600 - 0)%Q) by (unfold Qle; simpl; lia).
  assert (H1 : (3600 - 0 < 86400)%Q) by (unfold Qlt; simpl; lia).
  split; [exact Hs |]. split; [reflexivity |].
  split; [exact H0 |]. split; [exact H1 |].
  split; [reflexivity |].
  exact (format_reset_time_hours (parse_all_aware 3600) always_tuesday
           "2025-06-01T12:00:00+00:00" 3600 0 Hs eq_refl H0 H1).
Defined.


(** X11: the update line is "Updated: never" before the first success and
    "Updated: just now" for less than five seconds since it, a clock that
    ran backwards included; then it counts whole seconds from 5 to 59,
    whole minutes from 1 to 59, and whole hours from 1 on. *)
Theorem format_updated_ago_tiers (t now : Q) :
  format_updated_ago None now = "Updated: never" /\
  ((now - t < 5)%Q -> format_updated_ago (Some t) now = "Updated: just now") /\
  ((5 <= now - t)%Q -> (now - t < 60)%Q ->
   exists n,
     format_updated_ago (Some t) now = ("Updated: " ++ str_of_Z n ++ "s ago")%string /\
     5 <= n <= 59 /\
     (inject_Z n <= now - t)%Q /\ (now - t < inject_Z (n + 1))%Q) /\
  ((60 <= now - t)%Q -> (now - t < 3600)%Q ->
   exists n,
     format_updated_ago (Some t) now = ("Updated: " ++ str_of_Z n ++ "m ago")%string /\
     1 <= n <= 59 /\
     (inject_Z (n * 60) <= now - t)%Q /\ (now - t < inject_Z ((n + 1) * 60))%Q) /\
  ((3600 <= now - t)%Q ->
   exists n,
     format_updated_ago (Some t) now = ("Updated: " ++ str_of_Z n ++ "h ago")%string /\
     1 <= n /\
     (inject_Z (n * 3600) <= now - t)%Q /\ (now - t < inject_Z ((n + 1) * 3600))%Q).
Proof.
  unfold format_updated_ago. set (e := (now - t)%Q).
  split; [reflexivity |].
  split; [| split; [| split]].
  - intros H. apply Qltb_lt in H. now rewrite H.
  - intros H5 H60.
    assert (E5 : Qltb e 5 = false) by now apply Qltb_ge.
    assert (E60 : Qltb e 60 = true) by now apply Qltb_lt.
    rewrite E5, E60.
    rewrite py_int_nonneg by lra.
    pose proof (Qfloor_le e) as Hlo. pose proof (Qlt_floor e) as Hhi.
    eexists. split; [reflexivity |].
    split; [| split; assumption].
    assert (Hb : 5 <= Qfloor e < 60)
      by (apply Qfloor_between; [change (inject_Z 5) with 5%Q; lra
                                | change (inject_Z 60) with 60%Q; lra]).
    lia.
  - intros H60 H3600.
    assert (E5 : Qltb e 5 = false) by (apply Qltb_ge; lra).
    assert (E60 : Qltb e 60 = false) by now apply Qltb_ge.
    assert (E3600 : Qltb e 3600 = true) by now apply Qltb_lt.
    rewrite E5, E60, E3600.
    assert (Hq : (0 <= e / 60)%Q) by (apply Qle_shift_div_l; lra).
    rewrite (py_int_nonneg _ Hq).
    destruct (Qfloor_div_bounds e 60) as (Hn0 & Hlo & Hhi); [lia | lra |].
    change (inject_Z 60) with 60%Q in *.
    eexists. split; [reflexivity |].
    split; [| split; assumption].
    split.
    + assert (H : (inject_Z 60 < inject_Z ((Qfloor (e / 60) + 1) * 60))%Q)
        by (change (inject_Z 60) with 60%Q; lra).
      rewrite <- Zlt_Qlt in H. lia.
    + assert (H : (inject_Z (Qfloor (e / 60) * 60) < inject_Z 3600)%Q)
        by (change (inject_Z 3600) with 3600%Q; lra).
      rewrite <- Zlt_Qlt in H. lia.
  - intros H3600.
    assert (E5 : Qltb e 5 = false) by (apply Qltb_ge; lra).
    assert (E60 : Qltb e 60 = false) by (apply Qltb_ge; lra).
    assert (E3600 : Qltb e 3600 = false) by now apply Qltb_ge.
    rewrite E5, E60, E3600.
    assert (Hq : (0 <= e / 3600)%Q) by (apply Qle_shift_div_l; lra).
    rewrite (py_int_nonneg _ Hq).
    destruct (Qfloor_div_bounds e 3600) as (Hn0 & Hlo & Hhi); [lia | lra |].
    change (inject_Z 3600) with 3600%Q in *.
    eexists. split; [reflexivity |].
    split; [| split; assumption].
    assert (H : (inject_Z 3600 < inject_Z ((Qfloor (e / 3600) + 1) * 3600))%Q)
      by (change (inject_Z 3600) with 3600%Q; lra).
    rewrite <- Zlt_Qlt in H. lia.
Qed.

Lemma format_updated_ago_tiers_witness :
  ((3 - 10 < 5)%Q /\ format_updated_ago (Some 10%Q) 3 = "Updated: just now") /\
  ((5 <= 59 - 0)%Q /\ (59 - 0 < 60)%Q /\
   format_updated_ago (Some 0%Q) 59 = "Updated: 59s ago") /\
  ((60 <= 60 - 0)%Q /\ (60 - 0 < 3600)%Q /\
   exists n,
     format_updated_ago (Some 0%Q) 60 = ("Updated: " ++ str_of_Z n ++ "m ago")%string /\
     1 <= n <= 59 /\
     (inject_Z (n * 60) <= 60 - 0)%Q /\ (60 - 0 < inject_Z ((n + 1) * 60))%Q) /\
  ((3600 <= 7300 - 0)%Q /\
   exists n,
     format_updated_ago (Some 0%Q) 7300 = ("Updated: " ++ str_of_Z n ++ "h ago")%string /\
     1 <= n /\
     (inject_Z (n * 3600) <= 7300 - 0)%Q /\ (7300 - 0 < inject_Z ((n + 1) * 3600))%Q).
Proof.
  assert (Ha : (3 - 10 < 5)%Q) by (unfold Qlt; simpl; lia).
  assert (Hc1 : (60 <= 60 - 0)%Q) by (unfold Qle; simpl; lia).
  assert (Hc2 : (60 - 0 < 3600)%Q) by (unfold Qlt; simpl; lia).
  assert (Hd : (3600 <= 7300 - 0)%Q) by (unfold Qle; simpl; lia).
  split; [split; [exact Ha |] |].
  - exact (proj1 (proj2 (format_updated_ago_tiers 10 3)) Ha).
  - split; [split; [unfold Qle; simpl; lia | split; [unfold Qlt; simpl; lia | reflexivity]] |].
    split.
    + split; [exact Hc1 |]. split; [exact Hc2 |].
      exact (proj1 (proj2 (proj2 (proj2 (format_updated_ago_tiers 0 60)))) Hc1 Hc2).
    + split; [exact Hd |].
      exact (proj2 (proj2 (proj2 (proj2 (format_updated_ago_tiers 0 7300)))) Hd).
Defined.

(** ** Bar renderer: what is written where *)

Lemma bar_cell_row y x up gp u g i : row (bar_cell y x up gp u g i) = y.
Proof.
  unfold bar_cell.
  destruct (i =? gp), (i <? up), (Qltb g u), (i >=? gp); reflexivity.
Qed.

Lemma bar_loop_In_guard max_h max_w y x avail up gp u g indices c :
  In c (bar_loop max_h max_w y x avail up gp u g indices) ->
  exists i, In i indices /\ c = bar_cell y x up gp u g i /\
            i < avail /\ ~ (y = max_h - 1 /\ x + i = max_w - 1).
Proof.
  induction indices as [| i rest IH]; simpl; [contradiction |].
  destruct (i >=? avail) eqn:E1; [contradiction |].
  destruct ((y =? max_h - 1) && (x + i =? max_w - 1)) eqn:E2; [contradiction |].
  intros [<- | H].
  - exists i. split; [now left |]. split; [reflexivity |].
    split; [lia |]. intros (Hy & Hx).
    apply andb_false_iff in E2. destruct E2 as [E2 | E2]; lia.
  - destruct (IH H) as (j & Hj & Hc & Hg). exists j. split; [now right | auto].
Qed.


(** X12: every write of [draw_bar] is on row [y], below the top of the
    window only if [y] is, at a column from [x] up to the last one of the
    window, and never on the cell in the bottom right corner. *)
Theorem draw_bar_stays_in_window max_h max_w y x width (u g : Q) (c : write) :
  In c (draw_bar max_h max_w y x width u g) ->
  row c = y /\ y < max_h /\
  x <= col c < max_w /\
  col c < x + width /\
  ~ (row c = max_h - 1 /\ col c = max_w - 1).
Proof.
  unfold draw_bar.
  destruct (width <? 3) eqn:E1; [contradiction |].
  destruct (y >=? max_h) eqn:E2; [contradiction |].
  destruct (max_w - x <? 3) eqn:E3; [contradiction |].
  intros H. apply bar_loop_In_guard in H.
  destruct H as (i & Hi & -> & Hav & Hcorner).
  apply range_spec in Hi.
  rewrite bar_cell_row, bar_cell_col.
  repeat split; lia.
Qed.

Lemma draw_bar_stays_in_window_witness :
  let c := mkWrite 23 78 EMPTY_CHAR (mkAttr 3 false) in
  In c (draw_bar 24 80 23 70 10 0 0) /\
  row c = 23 /\ 23 < 24 /\
  70 <= col c < 80 /\
  col c < 70 + 10 /\
  ~ (row c = 24 - 1 /\ col c = 80 - 1).
Proof.
  intros c.
  assert (H : In c (draw_bar 24 80 23 70 10 0 0))
    by (vm_compute; do 8 right; left; reflexivity).
  split; [exact H |].
  exact (draw_bar_stays_in_window 24 80 23 70 10 0 0 c H).
Defined.



(** The marker is written with the pair that blends into the filled
    part exactly when the usage exceeds the glide slope, and with the pair
    that blends into the empty part otherwise. *)
Theorem marker_blend max_h max_w y x width (u g : Q) (m : write) :
  In m (draw_bar max_h max_w y x width u g) ->
  is_marker_write m = true ->
  (cell_of m = MarkerBlendFilled <-> (g < u)%Q) /\
  (cell_of m = MarkerBlendEmpty <-> (u <= g)%Q) /\
  bold (wattr m) = true.
Proof.
  intros Hin Hm.
  destruct (draw_bar_In _ _ _ _ _ _ _ _ Hin) as (_ & _ & i & _ & ->).
  rewrite bar_cell_marker in Hm.
  rewrite (bar_cell_marker_state _ _ _ _ _ _ _ Hm).
  unfold bar_cell. rewrite Hm.
  destruct (Qltb g u) eqn:E.
  - apply Qltb_lt in E. repeat split; auto; try discriminate.
    intros H. exfalso. apply (Qlt_not_le _ _ E H).
  - apply Qltb_ge in E. repeat split; auto; try discriminate.
    intros H. exfalso. apply (Qlt_not_le _ _ H E).
Qed.

Lemma marker_blend_witness :
  let m := mkWrite 5 7 MARKER_CHAR (mkAttr 4 true) in
  In m (draw_bar 24 80 5 2 10 80 50) /\
  is_marker_write m = true /\
  (cell_of m = MarkerBlendFilled <-> (50 < 80)%Q) /\
  (cell_of m = MarkerBlendEmpty <-> (80 <= 50)%Q) /\
  bold (wattr m) = true.
Proof.
  intros m.
  assert (H : In m (draw_bar 24 80 5 2 10 80 50))
    by (vm_compute; do 5 right; left; reflexivity).
  split; [exact H |]. split; [reflexivity |].
  exact (marker_blend 24 80 5 2 10 80 50 m H eq_refl).
Defined.

Lemma py_round_bounds (x : Q) : Qfloor x <= py_round x <= Qfloor x + 1.
Proof.
  unfold py_round.
  destruct (Qltb _ _); [lia |].
  destruct (Qltb _ _); [lia |].
  destruct (Z.even _); lia.
Qed.

Lemma py_round_mono (x y : Q) : (x <= y)%Q -> py_round x <= py_round y.
Proof.
  intros H.
  pose proof (Qfloor_resp_le x y H) as Hf.
  destruct (Z.eq_dec (Qfloor x) (Qfloor y)) as [E | N].
  - unfold py_round. rewrite <- E.
    destruct (Qltb (x - inject_Z (Qfloor x)) (1 # 2)) eqn:Ex1.
    + destruct (Qltb (y - inject_Z (Qfloor x)) (1 # 2)); [lia |].
      destruct (Qltb (1 # 2) (y - inject_Z (Qfloor x))); [lia |].
      destruct (Z.even (Qfloor x)); lia.
    + apply Qltb_ge in Ex1.
      assert (Ey1 : Qltb (y - inject_Z (Qfloor x)) (1 # 2) = false)
        by (apply Qltb_ge; lra).
      rewrite Ey1.
      destruct (Qltb (1 # 2) (x - inject_Z (Qfloor x))) eqn:Ex2.
      * apply Qltb_lt in Ex2.
        assert (Ey2 : Qltb (1 # 2) (y - inject_Z (Qfloor x)) = true)
          by (apply Qltb_lt; lra).
        rewrite Ey2. lia.
      * destruct (Qltb (1 # 2) (y - inject_Z (Qfloor x)));
          destruct (Z.even (Qfloor x)); lia.
  - pose proof (py_round_bounds x). pose proof (py_round_bounds y). lia.
Qed.

(** X14: for a bar of width at least 0, the number of filled cells does not
    shrink when the usage grows, and the marker does not move left when the
    glide slope grows. *)
Theorem bar_positions_monotone (w : Z) (p p' : Q) :
  0 <= w -> (p <= p')%Q ->
  usage_pos w p <= usage_pos w p' /\ glide_pos w p <= glide_pos w p'.
Proof.
  intros Hw Hp.
  assert (Hq : (p / 100 * inject_Z w <= p' / 100 * inject_Z w)%Q).
  { apply Qmult_le_compat_r.
    - unfold Qdiv. apply Qmult_le_compat_r; [exact Hp |].
      unfold Qle. simpl. lia.
    - unfold Qle. simpl. lia. }
  pose proof (py_round_mono _ _ Hq) as Hr.
  unfold usage_pos, glide_pos. lia.
Qed.

Lemma bar_positions_monotone_witness :
  0 <= 10 /\ (35 <= 80)%Q /\
  usage_pos 10 35 <= usage_pos 10 80 /\ glide_pos 10 35 <= glide_pos 10 80.
Proof.
  assert (H1 : 0 <= 10) by lia.
  assert (H2 : (35 <= 80)%Q) by (unfold Qle; simpl; lia).
  split; [exact H1 |]. split; [exact H2 |].
  exact (bar_positions_monotone 10 35 80 H1 H2).
Defined.

(** ** The loop: keys, buffer and fetch variables *)

Lemma handle_key_buffer st tk st1 :
  handle_key st tk = Some st1 ->
  (escape_buf st1 = escape_buf st /\ escape_buf st = [] /\ ch tk <> 27) \/
  (escape_buf st1 = [27] /\ ch tk = 27) \/
  (escape_buf st1 = [27; 91] /\ escape_buf st = [27] /\ ch tk = 91) \/
  (escape_buf st1 = [] /\ escape_buf st <> [] /\ ch tk <> 27).
Proof.
  unfold handle_key, item.
  destruct (ch tk =? 27) eqn:E27.
  - intros [= <-]. right. left. split; [reflexivity | lia].
  - assert (N27 : ch tk <> 27) by lia.
    destruct (escape_buf st) as [| a [| b [| c l]]] eqn:Hbuf; cbn.
    + intros H. left.
      destruct ((ch tk =? 113) || (ch tk =? 81)); [discriminate |].
      destruct ((ch tk =? 114) || (ch tk =? 82)).
      * injection H as <-.
        destruct (do_fetch_parser st (manual_fetch tk)) as (_ & Hb & _).
        rewrite Hb, Hbuf. auto.
      * destruct (ch tk =? KEY_RESIZE); injection H as <-; rewrite Hbuf; auto.
    + destruct (a =? 27) eqn:Ea; destruct (ch tk =? 91) eqn:E91; cbn;
        intros [= <-]; cbn.
      * right. right. left. apply Z.eqb_eq in Ea, E91. subst a.
        rewrite E91. auto.
      * right. right. right. split; [reflexivity |]. split; [discriminate | exact N27].
      * right. right. right. split; [reflexivity |]. split; [discriminate | exact N27].
      * right. right. right. split; [reflexivity |]. split; [discriminate | exact N27].
    + intros H. right. right. right.
      split; [| split; [discriminate | exact N27]].
      destruct ((a =? 27) && (b =? 91)).
      * destruct (ch tk =? 73); [injection H as <-; reflexivity |].
        destruct (ch tk =? 79); injection H as <-; reflexivity.
      * injection H as <-. reflexivity.
    + intros H. right. right. right.
      split; [| split; [discriminate | exact N27]].
      destruct (List.length (l ++ [ch tk])) eqn:Elen.
      { rewrite length_app in Elen. simpl in Elen. lia. }
      cbn in H. injection H as <-. reflexivity.
Qed.

Lemma step_buffer_well_formed st tk st' :
  buffer_well_formed st -> step st tk = Some st' -> buffer_well_formed st'.
Proof.
  intros Hwf Hs.
  destruct (handle_key st tk) as [st1 |] eqn:Hk;
    [| unfold step in Hs; rewrite Hk in Hs; discriminate].
  destruct (step_view st tk st1 Hk) as (st2 & Hs2 & _ & _ & Hb).
  rewrite Hs in Hs2. injection Hs2 as <-.
  unfold buffer_well_formed. rewrite Hb.
  destruct (nonempty (escape_buf st1) && Qltb (1 # 2) (stale_clock tk - escape_time st1));
    [now left |].
  destruct (handle_key_buffer st tk st1 Hk)
    as [(H1 & H2 & _) | [(H1 & _) | [(H1 & _) | (H1 & _)]]]; rewrite H1; auto.
Qed.

(** X16: in every state the loop reaches, the escape buffer is empty, holds
    [ESC], or holds [ESC] [[]: the parser is in one of its three states and
    the buffer never grows beyond two bytes between iterations. *)
Theorem reachable_buffer_well_formed (st : loop_state) :
  reachable st ->
  (escape_buf st = [] \/ escape_buf st = [27] \/ escape_buf st = [27; 91]) /\
  parser_state_of st <> OtherBuffer.
Proof.
  intros Hr.
  assert (Hwf : buffer_well_formed st).
  { induction Hr as [io | st tk st' _ IH Hs].
    - left. destruct (do_fetch_parser init_state io) as (_ & Hb & _).
      rewrite Hb. reflexivity.
    - exact (step_buffer_well_formed st tk st' IH Hs). }
  split; [exact Hwf |].
  unfold parser_state_of.
  destruct Hwf as [H | [H | H]]; rewrite H; discriminate.
Qed.

Lemma reachable_buffer_well_formed_witness :
  let st := mkLoop true [] (Some 0%Q) 0 None [27] 1 in
  reachable st /\
  (escape_buf st = [] \/ escape_buf st = [27] \/ escape_buf st = [27; 91]) /\
  parser_state_of st <> OtherBuffer.
Proof.
  intros st.
  assert (Hr : reachable st).
  { apply (reach_step started (key_at 27 1)); [apply reach_initial_fetch | reflexivity]. }
  split; [exact Hr | exact (reachable_buffer_well_formed st Hr)].
Defined.


Lemma clear_stale_fetch_view st tk : fetch_view (clear_stale st tk) = fetch_view st.
Proof.
  unfold clear_stale.
  destruct (nonempty (escape_buf st) && Qltb (1 # 2) (stale_clock tk - escape_time st));
    reflexivity.
Qed.

(** X18: while a partial escape sequence is buffered, a byte other than
    [ESC] is taken by the parser whatever it is: the loop goes on, also on
    [q], and no fetch variable has changed when the scheduler check runs,
    also on [r]. *)
Theorem buffered_prefix_swallows_key (st : loop_state) (tk : tick) :
  escape_buf st <> [] -> ch tk <> 27 ->
  exists st1,
    before_refresh st tk = Some st1 /\
    categories st1 = categories st /\
    last_fetch_time st1 = last_fetch_time st /\
    last_fetch_attempt st1 = last_fetch_attempt st /\
    error_msg st1 = error_msg st.
Proof.
  intros Hbuf H27.
  assert (Hk : exists st0, handle_key st tk = Some st0 /\ fetch_view st0 = fetch_view st).
  { unfold handle_key.
    assert (E27 : (ch tk =? 27) = false) by lia. rewrite E27.
    destruct (escape_buf st) as [| a l]; [now elim Hbuf |]. cbn.
    destruct (_ && _ && (ch tk =? 91)); [eexists; split; reflexivity |].
    destruct (_ && _ && _); [| eexists; split; reflexivity].
    destruct (ch tk =? 73); [eexists; split; reflexivity |].
    destruct (ch tk =? 79); eexists; split; reflexivity. }
  destruct Hk as (st0 & Hk & Hv).
  exists (clear_stale st0 tk). unfold before_refresh. rewrite Hk.
  split; [reflexivity |].
  pose proof (clear_stale_fetch_view st0 tk) as Hc. rewrite Hv in Hc.
  unfold fetch_view in Hc. injection Hc as H1 H2 H3 H4. auto.
Qed.

Lemma buffered_prefix_swallows_key_witness :
  let st := mkLoop true [] (Some 0%Q) 0 None [27] 1 in
  let tk := key_at 113 1 in
  escape_buf st <> [] /\ ch tk <> 27 /\
  exists st1,
    before_refresh st tk = Some st1 /\
    categories st1 = categories st /\
    last_fetch_time st1 = last_fetch_time st /\
    last_fetch_attempt st1 = last_fetch_attempt st /\
    error_msg st1 = error_msg st.
Proof.
  intros st tk.
  assert (H1 : escape_buf st <> []) by discriminate.
  assert (H2 : ch tk <> 27) by discriminate.
  split; [exact H1 |]. split; [exact H2 |].
  exact (buffered_prefix_swallows_key st tk H1 H2).
Defined.

(** X19: after an iteration on any input other than [ESC] and [[], the
    one-second timeout of [getch] (-1) included, the parser is idle. *)
Theorem other_bytes_reset_parser (st : loop_state) (tk : tick) (st' : loop_state) :
  ch tk <> 27 -> ch tk <> 91 ->
  step st tk = Some st' ->
  parser_state_of st' = Idle.
Proof.
  intros H27 H91 Hs.
  destruct (handle_key st tk) as [st1 |] eqn:Hk;
    [| unfold step in Hs; rewrite Hk in Hs; discriminate].
  destruct (step_view st tk st1 Hk) as (st2 & Hs2 & _ & _ & Hb).
  rewrite Hs in Hs2. injection Hs2 as <-.
  unfold parser_state_of. rewrite Hb.
  destruct (nonempty (escape_buf st1) && Qltb (1 # 2) (stale_clock tk - escape_time st1));
    [reflexivity |].
  destruct (handle_key_buffer st tk st1 Hk)
    as [(H1 & H2 & _) | [(_ & H1) | [(_ & _ & H1) | (H1 & _)]]].
  - now rewrite H1, H2.
  - contradiction.
  - contradiction.
  - now rewrite H1.
Qed.

Lemma other_bytes_reset_parser_witness :
  let st := mkLoop true [] (Some 0%Q) 0 None [27; 91] 1 in
  let tk := key_at (-1) (12 # 10) in
  ch tk <> 27 /\ ch tk <> 91 /\
  step st tk = Some (mkLoop true [] (Some 0%Q) 0 None [] 1) /\
  parser_state_of (mkLoop true [] (Some 0%Q) 0 None [] 1) = Idle.
Proof.
  intros st tk.
  assert (H1 : ch tk <> 27) by discriminate.
  assert (H2 : ch tk <> 91) by discriminate.
  assert (H4 : step st tk = Some (mkLoop true [] (Some 0%Q) 0 None [] 1))
    by reflexivity.
  repeat (split; [assumption |]).
  exact (other_bytes_reset_parser st tk _ H1 H2 H4).
Defined.

Lemma do_fetch_failure_keeps st io :
  fetch_fails io = true ->
  categories (do_fetch st io) = categories st /\
  last_fetch_time (do_fetch st io) = last_fetch_time st /\
  str_truthy (error_msg (do_fetch st io)) = true.
Proof.
  unfold fetch_fails, do_fetch.
  destruct (token_result io) as [token err1], (usage_result io) as [data err2].
  simpl.
  destruct (str_truthy err1) eqn:E1; [simpl; auto |].
  destruct (str_truthy err2) eqn:E2; [simpl; auto | discriminate].
Qed.

Lemma refresh_check_failure_keeps st tk :
  fetch_fails (sched_fetch tk) = true ->
  categories (refresh_check st tk) = categories st /\
  last_fetch_time (refresh_check st tk) = last_fetch_time st.
Proof.
  intros Hs. unfold refresh_check.
  destruct (do_fetch_failure_keeps st (sched_fetch tk) Hs) as (Hd1 & Hd2 & _).
  destruct (last_fetch_time st) as [t |] eqn:Ht.
  - destruct (Qle_bool _ _); auto.
  - destruct (str_truthy (error_msg st) && Qle_bool _ _); auto.
Qed.

Lemma handle_key_failure_keeps st tk st1 :
  fetch_fails (manual_fetch tk) = true -> handle_key st tk = Some st1 ->
  categories st1 = categories st /\ last_fetch_time st1 = last_fetch_time st.
Proof.
  intros Hm Hk. unfold handle_key in Hk.
  destruct (ch tk =? 27); [injection Hk as <-; auto |].
  destruct (nonempty (escape_buf st)).
  - destruct (_ && _ && (ch tk =? 91)); [injection Hk as <-; auto |].
    destruct (_ && _ && _); [| injection Hk as <-; auto].
    destruct (ch tk =? 73); [injection Hk as <-; auto |].
    destruct (ch tk =? 79); injection Hk as <-; auto.
  - destruct ((ch tk =? 113) || (ch tk =? 81)); [discriminate |].
    destruct ((ch tk =? 114) || (ch tk =? 82)).
    + injection Hk as <-.
      destruct (do_fetch_failure_keeps st (manual_fetch tk) Hm) as (Ha & Hb & _). auto.
    + destruct (ch tk =? KEY_RESIZE); injection Hk as <-; auto.
Qed.

Lemma step_failure_keeps st tk st' :
  tick_fetches_fail tk -> step st tk = Some st' ->
  categories st' = categories st /\ last_fetch_time st' = last_fetch_time st.
Proof.
  intros (Hm & Hs) Hstep. unfold step in Hstep.
  destruct (handle_key st tk) as [st1 |] eqn:Hk; [| discriminate].
  injection Hstep as <-.
  destruct (handle_key_failure_keeps st tk st1 Hm Hk) as (Ha & Hb).
  destruct (refresh_check_failure_keeps (clear_stale st1 tk) tk Hs) as (Hc & Hd).
  pose proof (clear_stale_fetch_view st1 tk) as Hv.
  unfold fetch_view in Hv. injection Hv as Hv1 Hv2 _ _.
  rewrite Hc, Hd, Hv1, Hv2. auto.
Qed.

(** X20: over any number of iterations in which every fetch fails, the
    categories on display and the time of the last success stay what they
    were: the loop keeps the last good snapshot. *)
Theorem run_offline_keeps_snapshot (st : loop_state) (ticks : list tick) (st' : loop_state) :
  Forall tick_fetches_fail ticks ->
  run st ticks = Some st' ->
  categories st' = categories st /\ last_fetch_time st' = last_fetch_time st.
Proof.
  intros Hall. revert st. induction Hall as [| tk ticks Htk _ IH]; intros st; simpl.
  - intros [= <-]. auto.
  - destruct (step st tk) as [st1 |] eqn:Hs; [| discriminate].
    intros Hrun. destruct (IH st1 Hrun) as (Ha & Hb).
    destruct (step_failure_keeps st tk st1 Htk Hs) as (Hc & Hd).
    rewrite Ha, Hb. auto.
Qed.

Lemma run_offline_keeps_snapshot_witness :
  let st := mkLoop true (parse_usage mixed_payload) (Some 0%Q) 0 None [] 0 in
  let ticks := [key_offline 114 40; key_offline (-1) 41; key_offline 27 42] in
  Forall tick_fetches_fail ticks /\
  run st ticks
  = Some (mkLoop true (parse_usage mixed_payload) (Some 0%Q) 42
                 (Some "Network error: timed out") [27] 42) /\
  categories (mkLoop true (parse_usage mixed_payload) (Some 0%Q) 42
                     (Some "Network error: timed out") [27] 42) = categories st /\
  last_fetch_time (mkLoop true (parse_usage mixed_payload) (Some 0%Q) 42
                          (Some "Network error: timed out") [27] 42)
  = last_fetch_time st.
Proof.
  intros st ticks.
  assert (H1 : Forall tick_fetches_fail ticks)
    by (repeat constructor).
  assert (H2 : run st ticks
               = Some (mkLoop true (parse_usage mixed_payload) (Some 0%Q) 42
                              (Some "Network error: timed out") [27] 42))
    by reflexivity.
  split; [exact H1 |]. split; [exact H2 |].
  exact (run_offline_keeps_snapshot st ticks _ H1 H2).
Defined.

Lemma do_fetch_keeps_success st io :
  last_fetch_time st <> None -> last_fetch_time (do_fetch st io) <> None.
Proof.
  unfold do_fetch.
  destruct (token_result io) as [token err1], (usage_result io) as [data err2].
  destruct (str_truthy err1); [auto |].
  destruct (str_truthy err2); [auto | discriminate].
Qed.

Lemma step_keeps_success st tk st' :
  last_fetch_time st <> None -> step st tk = Some st' -> last_fetch_time st' <> None.
Proof.
  intros Hsome Hstep. unfold step in Hstep.
  destruct (handle_key st tk) as [st1 |] eqn:Hk; [| discriminate].
  injection Hstep as <-.
  assert (H1 : last_fetch_time st1 <> None).
  { unfold handle_key in Hk.
    destruct (ch tk =? 27); [injection Hk as <-; auto |].
    destruct (nonempty (escape_buf st)).
    - destruct (_ && _ && (ch tk =? 91)); [injection Hk as <-; auto |].
      destruct (_ && _ && _); [| injection Hk as <-; auto].
      destruct (ch tk =? 73); [injection Hk as <-; auto |].
      destruct (ch tk =? 79); injection Hk as <-; auto.
    - destruct ((ch tk =? 113) || (ch tk =? 81)); [discriminate |].
      destruct ((ch tk =? 114) || (ch tk =? 82)).
      + injection Hk as <-. now apply do_fetch_keeps_success.
      + destruct (ch tk =? KEY_RESIZE); injection Hk as <-; auto. }
  pose proof (clear_stale_fetch_view st1 tk) as Hv.
  unfold fetch_view in Hv. injection Hv as _ Hv2 _ _.
  assert (H2 : last_fetch_time (clear_stale st1 tk) <> None) by now rewrite Hv2.
  unfold refresh_check.
  destruct (last_fetch_time (clear_stale st1 tk)) as [t |] eqn:Ht; [| now elim H2].
  destruct (Qle_bool _ _).
  - apply do_fetch_keeps_success. rewrite Ht. discriminate.
  - rewrite Ht. discriminate.
Qed.

(** X21: a success is never forgotten: once [last_fetch_time] is set it
    stays set through every later iteration, whatever fails.  From then on
    a refresh is due exactly when the interval for the current focus, 30 or
    600 seconds, has passed since the last success; the retry after ten
    seconds, which needs [last_fetch_time] unset, is only used before the
    first success. *)
Theorem run_keeps_success (st : loop_state) (ticks : list tick) (st' : loop_state) :
  last_fetch_time st <> None ->
  run st ticks = Some st' ->
  exists t,
    last_fetch_time st' = Some t /\
    forall now,
      refresh_due st' now <->
      ((if has_focus st' then 30 else 600) <= now - t)%Q.
Proof.
  intros Hsome Hrun.
  assert (Hs' : last_fetch_time st' <> None).
  { revert st Hsome Hrun. induction ticks as [| tk ticks IH]; intros st Hsome; simpl.
    - intros [= <-]. exact Hsome.
    - destruct (step st tk) as [st1 |] eqn:Hs; [| discriminate].
      intros Hrun. apply (IH st1); [| exact Hrun].
      exact (step_keeps_success st tk st1 Hsome Hs). }
  destruct (last_fetch_time st') as [t |] eqn:Ht; [| now elim Hs'].
  exists t. split; [reflexivity |].
  intros now. unfold refresh_due. rewrite Ht. split.
  - intros [(t0 & [= <-] & Hcase) | (Hn & _)]; [| discriminate].
    destruct Hcase as [(Hf & Hq) | (Hf & Hq)]; rewrite Hf; exact Hq.
  - intros Hq. left. exists t. split; [reflexivity |].
    destruct (has_focus st'); [left | right]; auto.
Qed.

Lemma run_keeps_success_witness :
  let ticks := [key_offline 114 40; key_offline (-1) 41] in
  last_fetch_time started <> None /\
  run started ticks
  = Some (mkLoop true [] (Some 0%Q) 41 (Some "Network error: timed out") [] 0) /\
  exists t,
    last_fetch_time (mkLoop true [] (Some 0%Q) 41 (Some "Network error: timed out") [] 0)
    = Some t /\
    forall now,
      refresh_due (mkLoop true [] (Some 0%Q) 41 (Some "Network error: timed out") [] 0) now
      <-> ((if has_focus (mkLoop true [] (Some 0%Q) 41
                                 (Some "Network error: timed out") [] 0)
            then 30 else 600) <= now - t)%Q.
Proof.
  intros ticks.
  assert (H1 : last_fetch_time started <> None) by discriminate.
  assert (H2 : run started ticks
               = Some (mkLoop true [] (Some 0%Q) 41
                              (Some "Network error: timed out") [] 0))
    by reflexivity.
  split; [exact H1 |]. split; [exact H2 |].
  exact (run_keeps_success started ticks _ H1 H2).
Defined.



(** X23: the focus flag has exactly two ways to change in an iteration:
    with [ESC] [[] buffered, [I] sets it and [O] clears it.  In every other
    iteration, whatever the key and whatever is fetched, it stays as it
    was. *)
Theorem focus_flag_transitions (st : loop_state) (tk : tick) (st' : loop_state) :
  step st tk = Some st' ->
  (escape_buf st = [27; 91] -> ch tk = 73 -> has_focus st' = true) /\
  (escape_buf st = [27; 91] -> ch tk = 79 -> has_focus st' = false) /\
  (~ (escape_buf st = [27; 91] /\ (ch tk = 73 \/ ch tk = 79)) ->
   has_focus st' = has_focus st).
Proof.
  intros Hs. split; [| split].
  - intros Hb Hc.
    destruct (step_third st tk Hb) as (st2 & Hs2 & _ & Hf); [lia |].
    rewrite Hs in Hs2. injection Hs2 as <-. rewrite Hf, Hc. reflexivity.
  - intros Hb Hc.
    destruct (step_third st tk Hb) as (st2 & Hs2 & _ & Hf); [lia |].
    rewrite Hs in Hs2. injection Hs2 as <-. rewrite Hf, Hc. reflexivity.
  - intros Hnot.
    destruct (Bool.bool_dec (has_focus st') (has_focus st)) as [E | N]; [exact E |].
    exfalso. apply Hnot. exact (focus_change_needs_prefix st tk st' Hs N).
Qed.

Lemma focus_flag_transitions_witness :
  let st := mkLoop true [] (Some 0%Q) 0 None [27; 91] 1 in
  let tk := key_at 79 1 in
  let st' := mkLoop false [] (Some 0%Q) 0 None [] 1 in
  step st tk = Some st' /\
  (escape_buf st = [27; 91] -> ch tk = 79 -> has_focus st' = false).
Proof.
  intros st tk st'.
  assert (H : step st tk = Some st') by reflexivity.
  split; [exact H |].
  exact (proj1 (proj2 (focus_flag_transitions st tk st' H))).
Defined.

(** ** Colours of the bar *)



(** ** The frame *)






Section FrameFacts.

Variable fromisoformat : string -> isoparse.
Variable astimezone : Q -> local_time.
Variable format_0f : Q -> string.
Variable rejects : ui_call -> bool.
Variable clock : nat -> Q.





(** X24: on a window of fewer than 3 rows or fewer than 20 columns the
    frame is the one call that writes "Terminal too small" at the top left,
    whatever the categories hold: nothing is parsed or formatted, so nothing
    raises. *)
Theorem draw_ui_too_small max_h max_w cats last_fetch_time error_msg :
  max_h < 3 \/ max_w < 20 ->
  draw_ui fromisoformat astimezone format_0f rejects clock
    max_h max_w cats last_fetch_time error_msg
  = Returns [mkCall 0 0 "Terminal too small" 0 Plain].
Proof.
  intros H. unfold draw_ui.
  assert (E : (max_h <? 3) || (max_w <? 20) = true)
    by (apply orb_true_iff; lia).
  rewrite E. cbn [attempt]. now destruct (rejects _).
Qed.









End FrameFacts.

Lemma draw_ui_too_small_witness :
  (24 < 3 \/ 19 < 20) /\
  draw_ui parse_all_naive always_tuesday format_rounded accepts_all (frozen_clock 0)
    24 19 (parse_usage mixed_payload) None None
  = Returns [mkCall 0 0 "Terminal too small" 0 Plain].
Proof.
  assert (H : 24 < 3 \/ 19 < 20) by (right; lia).
  split; [exact H |].
  exact (draw_ui_too_small parse_all_naive always_tuesday format_rounded accepts_all
           (frozen_clock 0) 24 19 (parse_usage mixed_payload) None None H).
Defined.



